(** * denodrivers/sqlite3: the fast integer column accessor and the benchmark

    Two C files are verified here through a shallow embedding.

    - [src/fast.c]: [fastconfig] and [sqlite3_column_int_fast], the patch that
      reads a column as a 64-bit integer and either returns it as an [int] or
      reports it through two caller-owned locations.  Module [Fast].
    - [src/bench/bench.c]: [get_version], [bench] and [main], the timing
      harness around one prepared statement.  Module [Bench].

    The SQLite engine and the C library are outside the repository.  The
    extractor takes the engine's column accessor as a section variable; the
    benchmark takes everything it is linked against as a record [platform]. *)

From Stdlib Require Import ZArith List String Ascii Lia Bool DecimalString.
From stdpp Require Import gmap.

Local Open Scope Z_scope.

(** ** C integer types *)

Definition INT_MAX : Z := 2147483647.
Definition INT_MIN : Z := -2147483648.
Definition INT64_MAX : Z := 9223372036854775807.
Definition INT64_MIN : Z := -9223372036854775808.

Definition in_int (z : Z) : Prop := INT_MIN <= z <= INT_MAX.
Definition in_int64 (z : Z) : Prop := INT64_MIN <= z <= INT64_MAX.

(** The conversion [(int)x] of a wider signed integer: the low 32 bits, read
    as a two's complement number (the conversion C leaves to the
    implementation, as the compilers of the library's platforms define it). *)
Definition cast_int (z : Z) : Z :=
  let u := Z.land z 4294967295 in
  if u <? 2147483648 then u else u - 4294967296.

(** ** Byte-addressed memory

    Caller-owned locations are cells of a finite map from addresses to bytes.
    An address outside the map, or the null address, cannot be stored to:
    the store has no defined result.  A [char] takes one byte, an
    [sqlite3_int64] eight bytes, least significant first; alignment is not
    modelled.  The two pointer variables of fast.c are kept apart from this
    memory (no target overlaps the pointers themselves). *)

Module Mem.

Definition NULL : Z := 0.

(** The [n] low bytes of [z], least significant first. *)
Fixpoint le_split (n : nat) (z : Z) : list Z :=
  match n with
  | O => []
  | S n' => Z.land z 255 :: le_split n' (Z.shiftr z 8)
  end.

Fixpoint le_combine (bs : list Z) : Z :=
  match bs with
  | [] => 0
  | b :: bs' => Z.lor b (Z.shiftl (le_combine bs') 8)
  end.

(** An unsigned 64-bit pattern read as a signed integer. *)
Definition signed64 (u : Z) : Z :=
  if u <? 9223372036854775808 then u else u - 18446744073709551616.

Definition writable (m : gmap Z Z) (p : Z) : bool :=
  negb (p =? NULL) && bool_decide (is_Some (m !! p)).

(** [*p = b] for one byte. *)
Definition store_byte (m : gmap Z Z) (p b : Z) : option (gmap Z Z) :=
  if writable m p then Some (<[p := b]> m) else None.

Fixpoint store_bytes (m : gmap Z Z) (p : Z) (bs : list Z) : option (gmap Z Z) :=
  match bs with
  | [] => Some m
  | b :: bs' =>
      match store_byte m p b with
      | Some m' => store_bytes m' (p + 1) bs'
      | None => None
      end
  end.

Fixpoint load_bytes (m : gmap Z Z) (p : Z) (n : nat) : option (list Z) :=
  match n with
  | O => Some []
  | S n' =>
      match m !! p, load_bytes m (p + 1) n' with
      | Some b, Some bs => Some (b :: bs)
      | _, _ => None
      end
  end.

(** A [char] object holds one byte. *)
Definition store_char (m : gmap Z Z) (p v : Z) : option (gmap Z Z) :=
  store_byte m p (Z.land v 255).

Definition load_char (m : gmap Z Z) (p : Z) : option Z := m !! p.

(** An [sqlite3_int64] object holds eight bytes. *)
Definition store_int64 (m : gmap Z Z) (p v : Z) : option (gmap Z Z) :=
  store_bytes m p (le_split 8 v).

Definition load_int64 (m : gmap Z Z) (p : Z) : option Z :=
  match load_bytes m p 8 with
  | Some bs => Some (signed64 (le_combine bs))
  | None => None
  end.

(** The addresses an object of [n] bytes at [p] occupies. *)
Definition within (p : Z) (n : Z) (a : Z) : Prop := p <= a < p + n.

End Mem.

(** ** src/fast.c *)

Module Fast.

(** What a call hands back to its caller.  Control that reaches the closing
    brace of a non-void function without a [return] yields no value. *)
Inductive retval : Type :=
| Returned (n : Z)
| NoValue.

(** Stores through the two configured pointers, in program order. *)
Inductive store : Type :=
| StoreFlag (p v : Z)      (* [*iflagptr = v]  at address [p] *)
| StoreInt64 (p v : Z).    (* [*outintptr = v] at address [p] *)

(** Whether a store overwrites the byte at [a]. *)
Definition touchesb (ev : store) (a : Z) : bool :=
  match ev with
  | StoreFlag p _ => a =? p
  | StoreInt64 p _ => (p <=? a) && (a <? p + 8)
  end.

(** The two file-scope pointers, the memory they point into, and the log of
    stores made so far. *)
Record state : Type := mkState {
  iflagptr : Z;
  outintptr : Z;
  mem : gmap Z Z;
  stores : list store
}.

(** [char* iflagptr = 0; sqlite3_int64* outintptr = 0;] *)
Definition initial (m : gmap Z Z) : state :=
  {| iflagptr := Mem.NULL; outintptr := Mem.NULL; mem := m; stores := [] |}.

Definition fastconfig (flag outint : Z) (s : state) : state :=
  {| iflagptr := flag; outintptr := outint; mem := mem s; stores := stores s |}.

(** [*iflagptr = v;] *)
Definition assign_flag (v : Z) (s : state) : option state :=
  match Mem.store_char (mem s) (iflagptr s) v with
  | Some m' =>
      Some {| iflagptr := iflagptr s; outintptr := outintptr s; mem := m';
              stores := stores s ++ [StoreFlag (iflagptr s) v] |}
  | None => None
  end.

(** [*outintptr = v;] *)
Definition assign_outint (v : Z) (s : state) : option state :=
  match Mem.store_int64 (mem s) (outintptr s) v with
  | Some m' =>
      Some {| iflagptr := iflagptr s; outintptr := outintptr s; mem := m';
              stores := stores s ++ [StoreInt64 (outintptr s) v] |}
  | None => None
  end.

(** The flag and the value as the caller reads them back. *)
Definition flag_of (s : state) (p : Z) : option Z := Mem.load_char (mem s) p.
Definition value_of (s : state) (p : Z) : option Z := Mem.load_int64 (mem s) p.

(** Both targets can be stored to and the flag byte lies outside the eight
    bytes of the value. *)
Definition targets_ok (m : gmap Z Z) (flag outint : Z) : bool :=
  Mem.writable m flag
  && forallb (fun k => Mem.writable m (outint + k)) [0; 1; 2; 3; 4; 5; 6; 7]
  && negb ((outint <=? flag) && (flag <? outint + 8)).

Definition configured (s : state) : bool :=
  targets_ok (mem s) (iflagptr s) (outintptr s).

(** The stores made between an earlier state [s] and a later state [s']. *)
Definition since (s s' : state) : list store :=
  skipn (length (stores s)) (stores s').

(** How many of the stores [evs] overwrite the byte at [a]. *)
Definition writes_to (a : Z) (evs : list store) : nat :=
  length (List.filter (fun ev => touchesb ev a) evs).

(** The store goes through a pointer to one of the targets [flag], [outint]. *)
Definition targets_only (flag outint : Z) (ev : store) : Prop :=
  match ev with
  | StoreFlag p _ => p = flag
  | StoreInt64 p _ => p = outint
  end.

(** The byte at [a] belongs to neither target of the pair [flag], [outint]. *)
Definition outside (flag outint a : Z) : bool :=
  negb (a =? flag) && negb ((outint <=? a) && (a <? outint + 8)).

(** The flag byte at [flag0] and the eight value bytes at [outint0] all lie
    outside the pair [flag], [outint]. *)
Definition separate (flag outint flag0 outint0 : Z) : bool :=
  outside flag outint flag0
  && forallb (fun k => outside flag outint (outint0 + k)) [0; 1; 2; 3; 4; 5; 6; 7].

Section Extractor.

(** The engine's statement handle and its 64-bit column accessor. *)
Variable sqlite3_stmt : Type.
Variable sqlite3_column_int64 : sqlite3_stmt -> Z -> Z.

Definition sqlite3_column_int_fast (pStmt : sqlite3_stmt) (iCol : Z)
    (s : state) : option (retval * state) :=
  let i64 := sqlite3_column_int64 pStmt iCol in
  if i64 >? 0x7fffffff then
    match assign_flag 1 s with
    | Some s1 =>
        match assign_outint i64 s1 with
        | Some s2 => Some (NoValue, s2)
        | None => None
        end
    | None => None
    end
  else
    match assign_flag 0 s with
    | Some s1 => Some (Returned (cast_int i64), s1)
    | None => None
    end.

(** A session: the caller interleaves reconfigurations and extractions. *)
Inductive op : Type :=
| Configure (flag outint : Z)
| Extract (pStmt : sqlite3_stmt) (iCol : Z).

Definition step (o : op) (s : state) : option (option retval * state) :=
  match o with
  | Configure flag outint => Some (None, fastconfig flag outint s)
  | Extract pStmt iCol =>
      match sqlite3_column_int_fast pStmt iCol s with
      | Some (r, s') => Some (Some r, s')
      | None => None
      end
  end.

Fixpoint run (ops : list op) (s : state) : option state :=
  match ops with
  | [] => Some s
  | o :: ops' =>
      match step o s with
      | Some (_, s') => run ops' s'
      | None => None
      end
  end.

Definition extracts (calls : list (sqlite3_stmt * Z)) : list op :=
  map (fun c => Extract (fst c) (snd c)) calls.

(** Whether the column read by a call exceeds the largest [int]. *)
Definition overflows (pStmt : sqlite3_stmt) (iCol : Z) : bool :=
  sqlite3_column_int64 pStmt iCol >? INT_MAX.

(** A run of reconfigurations. *)
Definition configures (targets : list (Z * Z)) : list op :=
  map (fun t => Configure (fst t) (snd t)) targets.

(** The column value of the latest call of [calls] that overflows, if any. *)
Fixpoint last_overflow (calls : list (sqlite3_stmt * Z)) : option Z :=
  match calls with
  | [] => None
  | c :: calls' =>
      match last_overflow calls' with
      | Some v => Some v
      | None =>
          if overflows (fst c) (snd c)
          then Some (sqlite3_column_int64 (fst c) (snd c)) else None
      end
  end.

(** How many calls of [calls] overflow. *)
Definition count_overflows (calls : list (sqlite3_stmt * Z)) : nat :=
  length (List.filter (fun c => overflows (fst c) (snd c)) calls).

End Extractor.

Definition is_value_store (ev : store) : bool :=
  match ev with
  | StoreInt64 _ _ => true
  | StoreFlag _ _ => false
  end.

End Fast.

(** ** src/bench/bench.c *)

Module Bench.

(** Calls that leave the program: the SQLite C API and [clock] of the C
    library.  Database and statement handles are the pointer values the
    engine hands out. *)
Inductive call : Type :=
| Initialize
| OpenV2 (filename : string) (flags : Z)
| PrepareV2 (db : Z) (zSql : string) (nByte : Z)
| Exec (db : Z) (sql : string)
| Step (stmt : Z)
| ColumnInt (stmt : Z) (iCol : Z)
| Reset (stmt : Z)
| Finalize (stmt : Z)
| Close (db : Z)
| Shutdown
| Clock.

(** What the program is linked against.  [answer c e] is the value the call
    [c] returns in the outside state [e], with the state it leaves; every
    call returns.  For [OpenV2] and [PrepareV2] the value is the handle
    stored through the output pointer (the return code is discarded by
    [main]).  The constants are those of sqlite3.h.  [elapsed_0f] and
    [rate_0f] stand for the two [%.0f] renderings of the float expressions
    of [bench], as functions of the two clock readings and of [count]. *)
Record platform : Type := {
  env : Type;
  answer : call -> env -> Z * env;
  atoi : string -> Z;
  SQLITE_ROW : Z;
  SQLITE_OPEN_READWRITE : Z;
  SQLITE_OPEN_CREATE : Z;
  SQLITE_OPEN_NOMUTEX : Z;
  SQLITE_OPEN_PRIVATECACHE : Z;
  elapsed_0f : Z -> Z -> string;
  rate_0f : Z -> Z -> Z -> string
}.

Section Program.

Variable P : platform.

(** The outside state, the calls made so far, the chunks written to standard
    output so far (one per [printf]), and the two file-scope variables. *)
Record world : Type := mkWorld {
  outside : env P;
  calls : list call;
  stdout : list string;
  total : Z;
  count : Z
}.

(** [int total = 5; int count = 1000000;] *)
Definition initial (e : env P) : world :=
  {| outside := e; calls := []; stdout := []; total := 5; count := 1000000 |}.

(** A computation ends with a value and a world, has no defined behaviour
    (signed overflow), or has used up the fuel given to its loops. *)
Inductive result (A : Type) : Type :=
| Done (a : A) (w : world)
| Undefined
| OutOfFuel.

Arguments Done {A} a w.
Arguments Undefined {A}.
Arguments OutOfFuel {A}.

Definition M (A : Type) : Type := world -> result A.

Definition ret {A : Type} (a : A) : M A := fun w => Done a w.

Definition bind {A B : Type} (m : M A) (k : A -> M B) : M B :=
  fun w =>
    match m w with
    | Done a w' => k a w'
    | Undefined => Undefined
    | OutOfFuel => OutOfFuel
    end.

Notation "x <- m ;; k" := (bind m (fun x => k))
  (at level 100, m at next level, right associativity).
Notation "m ;;; k" := (bind m (fun _ => k))
  (at level 100, right associativity).

(** A call into the engine or the C library. *)
Definition extern (c : call) : M Z :=
  fun w =>
    let r := answer P c (outside w) in
    Done (fst r) {| outside := snd r; calls := calls w ++ [c]; stdout := stdout w;
                    total := total w; count := count w |}.

Definition printf (text : string) : M unit :=
  fun w =>
    Done tt {| outside := outside w; calls := calls w;
               stdout := stdout w ++ [text]; total := total w; count := count w |}.

Definition get_total : M Z := fun w => Done (total w) w.
Definition get_count : M Z := fun w => Done (count w) w.

Definition set_total (v : Z) : M unit :=
  fun w =>
    Done tt {| outside := outside w; calls := calls w; stdout := stdout w;
               total := v; count := count w |}.

Definition set_count (v : Z) : M unit :=
  fun w =>
    Done tt {| outside := outside w; calls := calls w; stdout := stdout w;
               total := total w; count := v |}.

(** [total--]: the old value; decrementing [INT_MIN] overflows. *)
Definition post_decrement_total : M Z :=
  t <- get_total ;;
  if t =? INT_MIN then (fun _ => Undefined)
  else set_total (t - 1) ;;; ret t.

Definition get_version (stmt : Z) : M Z :=
  rc <- extern (Step stmt) ;;
  if rc =? SQLITE_ROW P then
    val <- extern (ColumnInt stmt 0) ;;
    extern (Reset stmt) ;;;
    ret val
  else
    extern (Finalize stmt) ;;;
    ret 0.

(** [for (int i = 0; i < count; i++) get_version(stmt);] from the value [i]
    of the loop variable.  [i++] cannot overflow: it runs only when
    [i < count]. *)
Fixpoint for_loop (fuel : nat) (i : Z) (stmt : Z) : M unit :=
  match fuel with
  | O => fun _ => OutOfFuel
  | S fuel' =>
      c <- get_count ;;
      if i <? c then
        get_version stmt ;;;
        for_loop fuel' (i + 1) stmt
      else ret tt
  end.

(** The text of [printf("time %.0f ms rate %.0f\n", ...)]. *)
Definition timing_line (start finish c : Z) : string :=
  String.append "time "
    (String.append (elapsed_0f P start finish)
       (String.append " ms rate "
          (String.append (rate_0f P start finish c) (String "010" EmptyString)))).

Definition bench (fuel : nat) (stmt : Z) : M unit :=
  start <- extern Clock ;;
  for_loop fuel 0 stmt ;;;
  finish <- extern Clock ;;
  c <- get_count ;;
  printf (timing_line start finish c).

(** [while (total--) bench(stmt);] *)
Fixpoint while_total (n : nat) (fuel : nat) (stmt : Z) : M unit :=
  match n with
  | O => fun _ => OutOfFuel
  | S n' =>
      t <- post_decrement_total ;;
      if t =? 0 then ret tt
      else
        bench fuel stmt ;;;
        while_total n' fuel stmt
  end.

Definition open_flags : Z :=
  Z.lor (Z.lor (Z.lor (SQLITE_OPEN_READWRITE P) (SQLITE_OPEN_PRIVATECACHE P))
           (SQLITE_OPEN_NOMUTEX P))
    (SQLITE_OPEN_CREATE P).

(** [main]; [argv] holds the program name and the arguments, [argc] is its
    length.  Control reaching the end of [main] returns 0. *)
Definition main (fuel : nat) (argv : list string) : M Z :=
  let argc := Z.of_nat (length argv) in
  (if argc >? 1 then set_total (atoi P (nth 1 argv EmptyString)) else ret tt) ;;;
  (if argc >? 2 then set_count (atoi P (nth 2 argv EmptyString)) else ret tt) ;;;
  extern Initialize ;;;
  db <- extern (OpenV2 ":memory:" open_flags) ;;
  stmt <- extern (PrepareV2 db "pragma user_version" (-1)) ;;
  extern (Exec db "PRAGMA auto_vacuum = none") ;;;
  extern (Exec db "PRAGMA temp_store = memory") ;;;
  extern (Exec db "PRAGMA locking_mode = exclusive") ;;;
  extern (Exec db "PRAGMA user_version = 100") ;;;
  while_total fuel fuel stmt ;;;
  extern (Finalize stmt) ;;;
  extern (Close db) ;;;
  extern Shutdown ;;;
  ret 0.

End Program.

Arguments Done {P A} a w.
Arguments Undefined {P A}.
Arguments OutOfFuel {P A}.

(** The statements of [main] after its loop, under a name so that lemmas
    can speak of [main] from the loop on. *)
Definition main_tail (P : platform) (db stmt : Z) : M P Z :=
  bind P (extern P (Finalize stmt)) (fun _ =>
  bind P (extern P (Close db)) (fun _ =>
  bind P (extern P Shutdown) (fun _ =>
  ret P 0))).

(** Standard output as one text. *)
Definition output_text (chunks : list string) : string :=
  fold_right String.append EmptyString chunks.

(** The number of newline characters of a text. *)
Fixpoint newlines (s : string) : nat :=
  match s with
  | EmptyString => O
  | String c s' => ((if Ascii.eqb c "010" then 1 else 0) + newlines s')%nat
  end.

(** What a run shows to an observer of the calls and of standard output. *)
Inductive observed (A : Type) : Type :=
| Ended (a : A) (log : list call) (out : list string)
| NoBehaviour
| FuelSpent.

Arguments Ended {A} a log out.
Arguments NoBehaviour {A}.
Arguments FuelSpent {A}.

Definition observe {P : platform} {A : Type} (r : result P A) : observed A :=
  match r with
  | Done a w => Ended a (calls P w) (stdout P w)
  | Undefined => NoBehaviour
  | OutOfFuel => FuelSpent
  end.

(** *** Reading a log of calls *)

Definition is_step (c : call) : bool :=
  match c with Step _ => true | _ => false end.

(** Calls that take the prepared statement. *)
Definition on_statement (c : call) : bool :=
  match c with
  | Step _ | ColumnInt _ _ | Reset _ | Finalize _ => true
  | _ => false
  end.

(** One execution of the statement: step, read column 0, reset. *)
Definition cycle (stmt : Z) : list call :=
  [Step stmt; ColumnInt stmt 0; Reset stmt].

(** The calls of one [get_version], by the result code of its step. *)
Definition version_calls (P : platform) (stmt rc : Z) : list call :=
  if rc =? SQLITE_ROW P then cycle stmt else [Step stmt; Finalize stmt].

(** The calls [main] makes before and after its loop. *)
Definition prologue (P : platform) (db : Z) : list call :=
  [Initialize; OpenV2 ":memory:" (open_flags P);
   PrepareV2 db "pragma user_version" (-1);
   Exec db "PRAGMA auto_vacuum = none"; Exec db "PRAGMA temp_store = memory";
   Exec db "PRAGMA locking_mode = exclusive"; Exec db "PRAGMA user_version = 100"].

Definition epilogue (db stmt : Z) : list call :=
  [Finalize stmt; Close db; Shutdown].

(** The calls of one [bench] whose every step yields a row. *)
Definition batch (stmt : Z) (n : nat) : list call :=
  Clock :: concat (repeat (cycle stmt) n) ++ [Clock].

(** [l] is the log of one [get_version] for some answer of the engine to the
    step. *)
Definition one_version (P : platform) (stmt : Z) (l : list call) : Prop :=
  exists e, l = version_calls P stmt (fst (answer P (Step stmt) e)).

(** [b] is the log of one [bench] of [c] iterations: two clock readings
    around the logs of the iterations. *)
Definition one_batch (P : platform) (stmt c : Z) (b : list call) : Prop :=
  exists ls,
    b = Clock :: concat ls ++ [Clock]
    /\ length ls = Z.to_nat c
    /\ Forall (one_version P stmt) ls.

(** A timing line as the interface describes it, written out character by
    character: the word [time], the elapsed milliseconds, [ms rate], the
    throughput, and a newline. *)
Definition is_timing_line (P : platform) (c : Z) (text : string) : Prop :=
  exists start finish,
    text = ("time " ++ elapsed_0f P start finish ++ " ms rate "
            ++ rate_0f P start finish c ++ String "010" EmptyString)%string.

Definition count_steps (l : list call) : nat := length (List.filter is_step l).

Definition is_column (c : call) : bool :=
  match c with ColumnInt _ _ => true | _ => false end.

Definition is_reset (c : call) : bool :=
  match c with Reset _ => true | _ => false end.

Definition is_finalize (c : call) : bool :=
  match c with Finalize _ => true | _ => false end.

Definition is_clock (c : call) : bool :=
  match c with Clock => true | _ => false end.

Definition count_if (f : call -> bool) (l : list call) : nat :=
  length (List.filter f l).

(** In [l] every column read has its reset, and every step is answered by a
    reset or by a finalize. *)
Definition balanced (l : list call) : Prop :=
  count_if is_column l = count_if is_reset l
  /\ count_steps l = (count_if is_reset l + count_if is_finalize l)%nat.

(** The statement of every step yields a row. *)
Definition always_row (P : platform) : Prop :=
  forall stmt e, fst (answer P (Step stmt) e) = SQLITE_ROW P.

(** No step yields a row. *)
Definition never_row (P : platform) : Prop :=
  forall stmt e, fst (answer P (Step stmt) e) <> SQLITE_ROW P.

(** The calls of one [bench] none of whose steps yields a row. *)
Definition failed_batch (stmt : Z) (n : nat) : list call :=
  Clock :: concat (repeat [Step stmt; Finalize stmt] n) ++ [Clock].

(** *** The command line, as the interface describes it

    Two optional positional arguments after the program name: the number of
    batches (5 when absent) and the iterations per batch (1000000 when
    absent). *)
Definition batches_arg (P : platform) (argv : list string) : Z :=
  match argv with
  | _ :: a1 :: _ => atoi P a1
  | _ => 5
  end.

Definition iterations_arg (P : platform) (argv : list string) : Z :=
  match argv with
  | _ :: _ :: a2 :: _ => atoi P a2
  | _ => 1000000
  end.

End Bench.

(** A concrete caller of the extractor, on which the statements below are
    evaluated: a flag byte at address 16, a value at addresses 32 to 39, a
    second pair at 64 and 72 to 79, and an engine with two statements whose
    column holds 5000000000 and -3000000000, and a family of statements whose
    column holds a number between 0 and 2147483647. *)

Module FastDemo.

Definition memory : gmap Z Z :=
  list_to_map
    [(16, 9); (32, 1); (33, 2); (34, 3); (35, 4); (36, 5); (37, 6); (38, 7); (39, 8);
     (64, 9); (72, 0); (73, 0); (74, 0); (75, 0); (76, 0); (77, 0); (78, 0); (79, 0)].

Inductive stmt : Type := big | negative | small (n : Z).

Definition column_int64 (p : stmt) (iCol : Z) : Z :=
  match p with
  | big => 5000000000
  | negative => -3000000000
  | small n => Z.max 0 (Z.min n 2147483647)
  end.

Definition configured_state : Fast.state :=
  Fast.fastconfig 16 32 (Fast.initial memory).

(** The state the call on [big] leaves. *)
Definition after_big : Fast.state :=
  match Fast.sqlite3_column_int_fast stmt column_int64 big 0 configured_state with
  | Some (_, s') => s'
  | None => configured_state
  end.

(** A flag target with a null value pointer, and a flag pointer that points
    at the first byte of the value target. *)
Definition flag_only_state : Fast.state :=
  Fast.fastconfig 16 Mem.NULL (Fast.initial memory).

Definition overlapping_state : Fast.state :=
  Fast.fastconfig 32 32 (Fast.initial memory).

End FastDemo.

(** Concrete platforms on which the statements about the benchmark are
    evaluated. *)

Module BenchDemo.
Import Bench.

(** [atoi] of the C library on a decimal numeral: white space, a sign, then
    digits up to the first other character. *)
Definition is_space (c : ascii) : bool :=
  let n := nat_of_ascii c in
  (n =? 32)%nat || ((9 <=? n)%nat && (n <=? 13)%nat).

Definition digit_of (c : ascii) : option Z :=
  let n := nat_of_ascii c in
  if ((48 <=? n)%nat && (n <=? 57)%nat)%bool then Some (Z.of_nat n - 48) else None.

Fixpoint digits (s : string) (acc : Z) : Z :=
  match s with
  | EmptyString => acc
  | String c s' =>
      match digit_of c with
      | Some d => digits s' (10 * acc + d)
      | None => acc
      end
  end.

Fixpoint skip_spaces (s : string) : string :=
  match s with
  | String c s' => if is_space c then skip_spaces s' else s
  | EmptyString => s
  end.

Definition libc_atoi (s : string) : Z :=
  match skip_spaces s with
  | String "-" s' => - digits s' 0
  | String "+" s' => digits s' 0
  | s' => digits s' 0
  end.

(** A rendering of the two floats that keeps the clock readings visible. *)
Definition decimal (z : Z) : string :=
  DecimalString.NilZero.string_of_int (Z.to_int z).

(** An engine whose statement yields a row holding 100 at every step.  The
    outside state is the processor time, which every [clock] advances. *)
Definition steady_answer (c : call) (e : Z) : Z * Z :=
  match c with
  | OpenV2 _ _ => (4096, e)
  | PrepareV2 _ _ _ => (8192, e)
  | Step _ => (100, e)
  | ColumnInt _ _ => (100, e)
  | Clock => (e, e + 2500)
  | _ => (0, e)
  end.

Definition steady : platform :=
  {| env := Z;
     answer := steady_answer;
     atoi := libc_atoi;
     SQLITE_ROW := 100;
     SQLITE_OPEN_READWRITE := 2;
     SQLITE_OPEN_CREATE := 4;
     SQLITE_OPEN_NOMUTEX := 32768;
     SQLITE_OPEN_PRIVATECACHE := 262144;
     elapsed_0f := fun start finish => decimal ((finish - start) / 1000);
     rate_0f := fun start finish c => decimal (c * 1000000 / (finish - start)) |}.

(** A world of the steady engine in which [count] is 0. *)
Definition idle_world : world steady := mkWorld steady 0 [] [] 5 0.

(** An engine whose statement never yields a row: every step answers
    SQLITE_DONE (101). *)
Definition barren_answer (c : call) (e : Z) : Z * Z :=
  match c with
  | OpenV2 _ _ => (4096, e)
  | PrepareV2 _ _ _ => (8192, e)
  | Step _ => (101, e)
  | Clock => (e, e + 2500)
  | _ => (0, e)
  end.

Definition barren : platform :=
  {| env := Z;
     answer := barren_answer;
     atoi := libc_atoi;
     SQLITE_ROW := 100;
     SQLITE_OPEN_READWRITE := 2;
     SQLITE_OPEN_CREATE := 4;
     SQLITE_OPEN_NOMUTEX := 32768;
     SQLITE_OPEN_PRIVATECACHE := 262144;
     elapsed_0f := fun start finish => decimal ((finish - start) / 1000);
     rate_0f := fun start finish c => decimal (c * 1000000 / (finish - start)) |}.

(** An engine whose steps answer with the result codes of a script, then with
    SQLITE_DONE (101). *)
Definition scripted_answer (c : call) (e : list Z) : Z * list Z :=
  match c with
  | OpenV2 _ _ => (4096, e)
  | PrepareV2 _ _ _ => (8192, e)
  | Step _ =>
      match e with
      | rc :: e' => (rc, e')
      | [] => (101, [])
      end
  | ColumnInt _ _ => (100, e)
  | _ => (0, e)
  end.

Definition scripted : platform :=
  {| env := list Z;
     answer := scripted_answer;
     atoi := libc_atoi;
     SQLITE_ROW := 100;
     SQLITE_OPEN_READWRITE := 2;
     SQLITE_OPEN_CREATE := 4;
     SQLITE_OPEN_NOMUTEX := 32768;
     SQLITE_OPEN_PRIVATECACHE := 262144;
     elapsed_0f := fun _ _ => "0"%string;
     rate_0f := fun _ _ _ => "inf"%string |}.

End BenchDemo.

(** * Properties *)

(** ** Memory *)

Section MemFacts.
Import Mem.
Implicit Types (m : gmap Z Z) (p a b z : Z) (bs : list Z).

Lemma le_split_length n z : length (le_split n z) = n.
Proof. revert z; induction n as [|n IH]; intros z; simpl; [done | by rewrite IH]. Qed.

Lemma le_combine_split n z :
  le_combine (le_split n z) = z mod 2 ^ (8 * Z.of_nat n).
Proof.
  revert z; induction n as [|n IH]; intros z.
  - simpl. by rewrite Z.mod_1_r.
  - cbn [le_split le_combine]. rewrite IH.
    change 255 with (Z.ones 8).
    apply Z.bits_inj'; intros i Hi.
    rewrite Z.lor_spec, Z.land_spec, Z.shiftl_spec by lia.
    destruct (Z.lt_ge_cases i 8) as [Hlo | Hhi].
    + rewrite Z.ones_spec_low by lia.
      rewrite (Z.testbit_neg_r _ (i - 8)) by lia.
      rewrite Z.mod_pow2_bits_low by lia.
      by rewrite andb_true_r, orb_false_r.
    + rewrite Z.ones_spec_high by lia.
      rewrite andb_false_r, orb_false_l.
      destruct (Z.lt_ge_cases (i - 8) (8 * Z.of_nat n)) as [Hin | Hout].
      * rewrite !Z.mod_pow2_bits_low by lia.
        rewrite Z.shiftr_spec by lia. f_equal; lia.
      * rewrite !Z.mod_pow2_bits_high by lia. done.
Qed.

Lemma signed64_wrap z :
  in_int64 z -> signed64 (z mod 2 ^ 64) = z.
Proof.
  unfold in_int64, INT64_MIN, INT64_MAX, signed64; intros Hz.
  change (2 ^ 64) with 18446744073709551616.
  destruct (Z.lt_ge_cases z 0) as [Hneg | Hpos].
  - replace (z mod 18446744073709551616) with (z + 18446744073709551616).
    + destruct (Z.ltb_spec (z + 18446744073709551616) 9223372036854775808); lia.
    + apply Z.mod_unique with (q := -1); lia.
  - rewrite Z.mod_small by lia.
    destruct (Z.ltb_spec z 9223372036854775808); lia.
Qed.

Lemma store_byte_lookup m p b m' a :
  store_byte m p b = Some m' ->
  m' !! a = if decide (a = p) then Some b else m !! a.
Proof.
  unfold store_byte; destruct (writable m p); [|done].
  intros [= <-]. case_decide as Hap.
  - subst a. apply lookup_insert_eq.
  - by apply lookup_insert_ne.
Qed.

Lemma store_byte_writable m p b m' a :
  store_byte m p b = Some m' -> writable m' a = writable m a.
Proof.
  intros Hst. unfold writable. rewrite (store_byte_lookup _ _ _ _ a Hst).
  case_decide as Hap; [|done]. subst a.
  unfold store_byte, writable in Hst.
  destruct (m !! p) as [x|] eqn:Hmp.
  - by rewrite !bool_decide_eq_true_2 by eauto.
  - rewrite bool_decide_eq_false_2 in Hst by (by intros [? ?]).
    by rewrite andb_false_r in Hst.
Qed.

Lemma store_bytes_writable bs : forall m p m' a,
  store_bytes m p bs = Some m' -> writable m' a = writable m a.
Proof.
  induction bs as [|b bs IH]; intros m p m' a; simpl.
  - by intros [= <-].
  - destruct (store_byte m p b) as [m1|] eqn:H1; [|done].
    intros H2. rewrite (IH _ _ _ a H2). by eapply store_byte_writable.
Qed.

(** A store of [bs] at [p] leaves every byte outside its range alone. *)
Lemma store_bytes_frame bs : forall m p m' a,
  store_bytes m p bs = Some m' ->
  ~ within p (Z.of_nat (length bs)) a ->
  m' !! a = m !! a.
Proof.
  unfold within.
  induction bs as [|b bs IH]; intros m p m' a; simpl length.
  - simpl. by intros [= <-].
  - simpl store_bytes.
    destruct (store_byte m p b) as [m1|] eqn:H1; [|done].
    intros H2 Hout. rewrite (IH _ _ _ a H2) by lia.
    rewrite (store_byte_lookup _ _ _ _ a H1).
    case_decide; [lia | done].
Qed.

(** Reading the range back gives the bytes stored. *)
Lemma load_store_bytes bs : forall m p m',
  store_bytes m p bs = Some m' ->
  load_bytes m' p (length bs) = Some bs.
Proof.
  induction bs as [|b bs IH]; intros m p m'; simpl; [done|].
  destruct (store_byte m p b) as [m1|] eqn:H1; [|done].
  intros H2. rewrite (IH _ _ _ H2).
  rewrite (store_bytes_frame _ _ _ _ p H2) by (unfold within; lia).
  rewrite (store_byte_lookup _ _ _ _ p H1).
  by rewrite decide_True.
Qed.

(** The store succeeds when every byte of the range is writable. *)
Lemma store_bytes_defined bs : forall m p,
  (forall i, (i < length bs)%nat -> writable m (p + Z.of_nat i) = true) ->
  is_Some (store_bytes m p bs).
Proof.
  induction bs as [|b bs IH]; intros m p Hw; simpl; [eauto|].
  destruct (store_byte m p b) as [m1|] eqn:H1.
  - apply IH. intros i Hi.
    rewrite (store_byte_writable _ _ _ _ _ H1).
    replace (p + 1 + Z.of_nat i) with (p + Z.of_nat (S i)) by lia.
    apply Hw. simpl; lia.
  - exfalso. unfold store_byte in H1.
    specialize (Hw O ltac:(simpl; lia)). simpl in Hw.
    rewrite Z.add_0_r in Hw. by rewrite Hw in H1.
Qed.

Lemma load_bytes_ext n : forall m m' p,
  (forall a, within p (Z.of_nat n) a -> m' !! a = m !! a) ->
  load_bytes m' p n = load_bytes m p n.
Proof.
  unfold within.
  induction n as [|n IH]; intros m m' p Hext; [done|].
  cbn [load_bytes]. rewrite (Hext p) by lia.
  rewrite (IH m m' (p + 1)); [done|].
  intros a Ha. apply Hext. lia.
Qed.

Lemma load_store_int64 m p v m' :
  in_int64 v ->
  store_int64 m p v = Some m' ->
  load_int64 m' p = Some v.
Proof.
  unfold store_int64, load_int64; intros Hv Hst.
  pose proof (load_store_bytes _ _ _ _ Hst) as Hld.
  rewrite le_split_length in Hld. rewrite Hld.
  rewrite le_combine_split. f_equal.
  by apply signed64_wrap.
Qed.

Lemma store_int64_frame m p v m' a :
  store_int64 m p v = Some m' -> ~ within p 8 a -> m' !! a = m !! a.
Proof.
  unfold store_int64; intros Hst Hout.
  eapply store_bytes_frame; [exact Hst|].
  by rewrite le_split_length.
Qed.

Lemma store_char_lookup m p v m' a :
  store_char m p v = Some m' ->
  m' !! a = if decide (a = p) then Some (Z.land v 255) else m !! a.
Proof. apply store_byte_lookup. Qed.

End MemFacts.

(** ** The extractor of src/fast.c *)

Section FastFacts.
Import Fast.

Variable sqlite3_stmt : Type.
Variable sqlite3_column_int64 : sqlite3_stmt -> Z -> Z.

Local Abbreviation extract := (sqlite3_column_int_fast sqlite3_stmt sqlite3_column_int64).
Local Abbreviation run := (Fast.run sqlite3_stmt sqlite3_column_int64).
Local Abbreviation overflows := (Fast.overflows sqlite3_stmt sqlite3_column_int64).

Implicit Types (s : state) (m : gmap Z Z) (a v : Z).

Lemma targets_ok_flag m flag outint :
  targets_ok m flag outint = true -> Mem.writable m flag = true.
Proof.
  unfold targets_ok. intros H.
  apply andb_prop in H as [H _]. by apply andb_prop in H as [H _].
Qed.

Lemma targets_ok_outint m flag outint (i : nat) :
  targets_ok m flag outint = true -> (i < 8)%nat ->
  Mem.writable m (outint + Z.of_nat i) = true.
Proof.
  unfold targets_ok. intros H Hi.
  apply andb_prop in H as [H _]. apply andb_prop in H as [_ H].
  rewrite forallb_forall in H. apply H.
  do 8 (destruct i as [|i]; [simpl; tauto|]). lia.
Qed.

Lemma targets_ok_apart m flag outint :
  targets_ok m flag outint = true -> ~ Mem.within outint 8 flag.
Proof.
  unfold targets_ok, Mem.within. intros H.
  apply andb_prop in H as [_ H]. apply negb_true_iff in H.
  apply andb_false_iff in H. lia.
Qed.

Lemma targets_ok_ext m m' flag outint :
  (forall a, Mem.writable m' a = Mem.writable m a) ->
  targets_ok m' flag outint = targets_ok m flag outint.
Proof.
  intros Hw. unfold targets_ok. rewrite Hw. do 2 f_equal.
  simpl. by rewrite !Hw.
Qed.

Lemma outside_spec flag outint a :
  outside flag outint a = true <-> a <> flag /\ ~ Mem.within outint 8 a.
Proof.
  unfold outside, Mem.within.
  rewrite andb_true_iff, !negb_true_iff, andb_false_iff. lia.
Qed.

Lemma since_app s s' evs :
  stores s' = stores s ++ evs -> since s s' = evs.
Proof.
  unfold since. intros ->.
  rewrite skipn_app, skipn_all, Nat.sub_diag. done.
Qed.

Lemma since_self s : since s s = [].
Proof. apply since_app. by rewrite app_nil_r. Qed.

Lemma writes_to_app a evs1 evs2 :
  writes_to a (evs1 ++ evs2) = (writes_to a evs1 + writes_to a evs2)%nat.
Proof. unfold writes_to. by rewrite List.filter_app, List.length_app. Qed.


(** *** Effect of the two assignments *)

Lemma assign_flag_effect v s :
  Mem.writable (mem s) (iflagptr s) = true ->
  exists m',
    assign_flag v s =
      Some (mkState (iflagptr s) (outintptr s) m'
              (stores s ++ [StoreFlag (iflagptr s) v]))
    /\ (forall a, m' !! a =
          if decide (a = iflagptr s) then Some (Z.land v 255) else mem s !! a)
    /\ (forall a, Mem.writable m' a = Mem.writable (mem s) a).
Proof.
  intros Hw. unfold assign_flag.
  destruct (Mem.store_char (mem s) (iflagptr s) v) as [m'|] eqn:Hst.
  - exists m'. split; [done|]. split.
    + intros a. by apply store_char_lookup.
    + intros a. by eapply store_byte_writable.
  - unfold Mem.store_char, Mem.store_byte in Hst. by rewrite Hw in Hst.
Qed.

Lemma assign_outint_effect v s :
  in_int64 v ->
  (forall i : nat, (i < 8)%nat ->
     Mem.writable (mem s) (outintptr s + Z.of_nat i) = true) ->
  exists m',
    assign_outint v s =
      Some (mkState (iflagptr s) (outintptr s) m'
              (stores s ++ [StoreInt64 (outintptr s) v]))
    /\ Mem.load_int64 m' (outintptr s) = Some v
    /\ (forall a, ~ Mem.within (outintptr s) 8 a -> m' !! a = mem s !! a)
    /\ (forall a, Mem.writable m' a = Mem.writable (mem s) a).
Proof.
  intros Hv Hw. unfold assign_outint.
  destruct (Mem.store_int64 (mem s) (outintptr s) v) as [m'|] eqn:Hst.
  - exists m'. split; [done|]. split; [|split].
    + by eapply load_store_int64.
    + intros a Ha. by eapply store_int64_frame.
    + intros a. by eapply store_bytes_writable.
  - exfalso. unfold Mem.store_int64 in Hst.
    destruct (store_bytes_defined (Mem.le_split 8 v) (mem s) (outintptr s))
      as [m' Hm'].
    + rewrite le_split_length. exact Hw.
    + congruence.
Qed.

(** *** Effect of one extraction

    From a configured state the call is defined; the lemma lists what it
    returns, what it stores and which bytes it changes, by the branch the
    column value selects. *)

Lemma extract_effect pStmt iCol s :
  let v := sqlite3_column_int64 pStmt iCol in
  let flag := iflagptr s in
  let outint := outintptr s in
  configured s = true ->
  in_int64 v ->
  exists s',
    extract pStmt iCol s =
      Some (if v >? 2147483647 then NoValue else Returned (cast_int v), s')
    /\ iflagptr s' = flag /\ outintptr s' = outint
    /\ configured s' = true
    /\ stores s' = stores s ++
         (if v >? 2147483647
          then [StoreFlag flag 1; StoreInt64 outint v]
          else [StoreFlag flag 0])
    /\ flag_of s' flag = Some (if v >? 2147483647 then 1 else 0)
    /\ (if v >? 2147483647
        then value_of s' outint = Some v
        else forall a, a <> flag -> mem s' !! a = mem s !! a)
    /\ (forall a, outside flag outint a = true -> mem s' !! a = mem s !! a).
Proof.
  intros v flag outint Hcfg Hv.
  unfold sqlite3_column_int_fast. fold v.
  pose proof (targets_ok_flag _ _ _ Hcfg) as Hwf.
  pose proof (targets_ok_apart _ _ _ Hcfg) as Hapart.
  destruct (v >? 2147483647) eqn:Hbig.
  - destruct (assign_flag_effect 1 s Hwf) as (m1 & -> & Hm1 & Hw1).
    set (s1 := mkState _ _ m1 _).
    destruct (assign_outint_effect v s1 Hv) as (m2 & -> & Hld & Hm2 & Hw2).
    { intros i Hi. simpl. rewrite Hw1. by eapply targets_ok_outint. }
    eexists; split; [reflexivity|]. simpl.
    repeat split; try done.
    + unfold configured; simpl.
      rewrite (targets_ok_ext (mem s) m2); [done|].
      intros a. by rewrite Hw2, Hw1.
    + by rewrite <- app_assoc.
    + unfold flag_of, Mem.load_char; simpl.
      rewrite (Hm2 flag) by done. rewrite Hm1. by rewrite decide_True.
    + intros a Ha. apply outside_spec in Ha as [Hne Hout].
      rewrite (Hm2 a) by done. rewrite Hm1. by rewrite decide_False.
  - destruct (assign_flag_effect 0 s Hwf) as (m1 & -> & Hm1 & Hw1).
    eexists; split; [reflexivity|]. simpl.
    repeat split; try done.
    + unfold configured; simpl. by rewrite (targets_ok_ext (mem s) m1).
    + unfold flag_of, Mem.load_char; simpl.
      rewrite Hm1. by rewrite decide_True.
    + intros a Ha. rewrite Hm1. by rewrite decide_False.
    + intros a Ha. apply outside_spec in Ha as [Hne Hout].
      rewrite Hm1. by rewrite decide_False.
Qed.

(** *** The narrowing conversion *)

Lemma cast_int_mod z :
  cast_int z =
    if z mod 4294967296 <? 2147483648
    then z mod 4294967296 else z mod 4294967296 - 4294967296.
Proof.
  unfold cast_int. change 4294967295 with (Z.ones 32).
  rewrite Z.land_ones by lia. done.
Qed.

Lemma cast_int_range z : in_int (cast_int z).
Proof.
  rewrite cast_int_mod. unfold in_int, INT_MIN, INT_MAX.
  pose proof (Z.mod_pos_bound z 4294967296 ltac:(lia)).
  destruct (Z.ltb_spec (z mod 4294967296) 2147483648); lia.
Qed.

Lemma cast_int_congruent z : cast_int z mod 4294967296 = z mod 4294967296.
Proof.
  rewrite cast_int_mod.
  destruct (Z.ltb_spec (z mod 4294967296) 2147483648).
  - by rewrite Z.mod_mod by lia.
  - rewrite <- (Z.mod_add _ 1) by lia.
    replace (z mod 4294967296 - 4294967296 + 1 * 4294967296)
      with (z mod 4294967296) by lia.
    by rewrite Z.mod_mod by lia.
Qed.

Lemma cast_int_id z : in_int z -> cast_int z = z.
Proof.
  unfold in_int, INT_MIN, INT_MAX. intros Hz. rewrite cast_int_mod.
  destruct (Z.lt_ge_cases z 0).
  - replace (z mod 4294967296) with (z + 4294967296)
      by (apply Z.mod_unique with (q := -1); lia).
    destruct (Z.ltb_spec (z + 4294967296) 2147483648); lia.
  - rewrite Z.mod_small by lia.
    destruct (Z.ltb_spec z 2147483648); lia.
Qed.

Lemma cast_int_changes z : ~ in_int z -> cast_int z <> z.
Proof. intros Hz Heq. apply Hz. rewrite <- Heq. apply cast_int_range. Qed.

Lemma value_of_unchanged s s' :
  (forall a, Mem.within (outintptr s) 8 a -> mem s' !! a = mem s !! a) ->
  value_of s' (outintptr s) = value_of s (outintptr s).
Proof.
  intros Hext. unfold value_of, Mem.load_int64.
  by rewrite (load_bytes_ext 8 (mem s) (mem s')).
Qed.

Lemma gtb_true v : v > 2147483647 -> (v >? 2147483647) = true.
Proof. intros. apply Z.gtb_lt. lia. Qed.

Lemma gtb_false v : v <= 2147483647 -> (v >? 2147483647) = false.
Proof. intros. destruct (Z.gtb_spec v 2147483647); [lia | done]. Qed.

(** *** The three ranges of the column value *)

(** C1.  A column value above 2147483647 is reported out of band: the call
    stores 1 to the configured flag and the whole 64-bit value to the
    configured value target, and it hands no value back to its caller
    (control reaches the end of the function without a [return]). *)
Theorem overflow_reports_full_value pStmt iCol s v :
  configured s = true ->
  sqlite3_column_int64 pStmt iCol = v ->
  in_int64 v ->
  v > 2147483647 ->
  exists s',
    extract pStmt iCol s = Some (NoValue, s')
    /\ flag_of s' (iflagptr s) = Some 1
    /\ value_of s' (outintptr s) = Some v.
Proof.
  intros Hcfg Hcol Hv Hbig.
  destruct (extract_effect pStmt iCol s Hcfg) as (s' & Hrun & _ & _ & _ & _ & Hflag & Hval & _).
  { by rewrite Hcol. }
  rewrite Hcol, (gtb_true v Hbig) in *.
  by exists s'.
Qed.

(** C2.  A negative column value, however small, clears the flag and is
    returned narrowed to 32 bits: the result is the [int] congruent to the
    value modulo 2^32.  The value target is not stored to, and below
    -2147483648 the returned number differs from the column value although
    the flag is 0. *)
Theorem negative_is_narrowed_silently pStmt iCol s v :
  configured s = true ->
  sqlite3_column_int64 pStmt iCol = v ->
  in_int64 v ->
  v < 0 ->
  exists r s',
    extract pStmt iCol s = Some (Returned r, s')
    /\ flag_of s' (iflagptr s) = Some 0
    /\ in_int r
    /\ r mod 2 ^ 32 = v mod 2 ^ 32
    /\ since s s' = [StoreFlag (iflagptr s) 0]
    /\ value_of s' (outintptr s) = value_of s (outintptr s)
    /\ (-2147483648 <= v -> r = v)
    /\ (v < -2147483648 -> r <> v).
Proof.
  intros Hcfg Hcol Hv Hneg.
  destruct (extract_effect pStmt iCol s Hcfg) as (s' & Hrun & _ & _ & _ & Hst & Hflag & Hmem & _).
  { by rewrite Hcol. }
  rewrite Hcol, (gtb_false v) in * by lia.
  exists (cast_int v), s'. repeat split; try done.
  - apply cast_int_range.
  - apply cast_int_range.
  - apply cast_int_congruent.
  - by apply since_app.
  - apply value_of_unchanged. intros a Ha. apply Hmem.
    intros ->. by apply (targets_ok_apart _ _ _ Hcfg).
  - intros Hlo. apply cast_int_id. unfold in_int, INT_MIN, INT_MAX. lia.
  - intros Hlo. apply cast_int_changes. unfold in_int, INT_MIN, INT_MAX. lia.
Qed.

(** C3.  A column value between 0 and 2147483647 clears the flag and is
    returned as it is. *)
Theorem small_value_is_returned pStmt iCol s v :
  configured s = true ->
  sqlite3_column_int64 pStmt iCol = v ->
  0 <= v <= 2147483647 ->
  exists s',
    extract pStmt iCol s = Some (Returned v, s')
    /\ flag_of s' (iflagptr s) = Some 0.
Proof.
  intros Hcfg Hcol Hv.
  destruct (extract_effect pStmt iCol s Hcfg) as (s' & Hrun & _ & _ & _ & _ & Hflag & _).
  { rewrite Hcol. unfold in_int64, INT64_MIN, INT64_MAX. lia. }
  rewrite Hcol, (gtb_false v) in * by lia.
  rewrite cast_int_id in Hrun by (unfold in_int, INT_MIN, INT_MAX; lia).
  by exists s'.
Qed.

(** C4.  When the column value does not exceed 2147483647 the call leaves
    every byte of the configured value target as it was, and makes no store
    through the value pointer. *)
Theorem value_target_kept_without_overflow pStmt iCol s v :
  configured s = true ->
  sqlite3_column_int64 pStmt iCol = v ->
  in_int64 v ->
  v <= 2147483647 ->
  exists r s',
    extract pStmt iCol s = Some (r, s')
    /\ (forall a, Mem.within (outintptr s) 8 a -> mem s' !! a = mem s !! a)
    /\ value_of s' (outintptr s) = value_of s (outintptr s)
    /\ (forall p x, ~ In (StoreInt64 p x) (since s s'))
    /\ (forall a, Mem.within (outintptr s) 8 a ->
          writes_to a (since s s') = 0%nat).
Proof.
  intros Hcfg Hcol Hv Hsmall.
  destruct (extract_effect pStmt iCol s Hcfg) as (s' & Hrun & _ & _ & _ & Hst & _ & Hmem & _).
  { by rewrite Hcol. }
  rewrite Hcol, (gtb_false v) in * by lia.
  pose proof (targets_ok_apart _ _ _ Hcfg) as Hapart.
  assert (Hkeep : forall a, Mem.within (outintptr s) 8 a -> mem s' !! a = mem s !! a).
  { intros a Ha. apply Hmem. by intros ->. }
  eexists _, s'. split; [exact Hrun|].
  rewrite (since_app s s' _ Hst).
  repeat split.
  - exact Hkeep.
  - by apply value_of_unchanged.
  - intros p x [Hin | []]. discriminate.
  - intros a Ha. unfold writes_to. simpl.
    destruct (Z.eqb_spec a (iflagptr s)) as [-> | _]; [by destruct Hapart | done].
Qed.

(** *** Sessions of several calls *)

Lemma run_app ops1 ops2 s :
  run (ops1 ++ ops2) s =
    match run ops1 s with
    | Some s1 => run ops2 s1
    | None => None
    end.
Proof.
  revert s; induction ops1 as [|o ops1 IH]; intros s; simpl; [done|].
  destruct (step _ _ o s) as [[r s1]|]; [apply IH | done].
Qed.

Lemma extracts_app calls1 calls2 :
  extracts sqlite3_stmt (calls1 ++ calls2) =
    extracts sqlite3_stmt calls1 ++ extracts sqlite3_stmt calls2.
Proof. apply map_app. Qed.

Lemma separate_spec flag outint flag0 outint0 :
  separate flag outint flag0 outint0 = true ->
  outside flag outint flag0 = true
  /\ forall a, Mem.within outint0 8 a -> outside flag outint a = true.
Proof.
  unfold separate, Mem.within. intros H.
  apply andb_prop in H as [H0 H]. split; [done|].
  intros a Ha. rewrite forallb_forall in H.
  replace a with (outint0 + (a - outint0)) by lia.
  apply H.
  assert (a - outint0 = 0 \/ a - outint0 = 1 \/ a - outint0 = 2
          \/ a - outint0 = 3 \/ a - outint0 = 4 \/ a - outint0 = 5
          \/ a - outint0 = 6 \/ a - outint0 = 7) as Hk by lia.
  simpl. intuition.
Qed.

Lemma targets_only_outside flag outint a evs :
  Forall (targets_only flag outint) evs ->
  outside flag outint a = true ->
  writes_to a evs = 0%nat.
Proof.
  intros Hall Hout. apply outside_spec in Hout as [Hne Hout].
  unfold Mem.within in Hout.
  induction Hall as [|ev evs Hev _ IH]; [done|].
  change (ev :: evs) with ([ev] ++ evs).
  rewrite writes_to_app, IH, Nat.add_0_r.
  unfold writes_to; simpl.
  destruct ev as [p x | p x]; simpl in *; subst p.
  - by destruct (Z.eqb_spec a flag).
  - destruct (Z.leb_spec outint a), (Z.ltb_spec a (outint + 8)); simpl; (done || lia).
Qed.

Section Sessions.

(** The accessor returns an [sqlite3_int64]. *)
Hypothesis column_int64_range :
  forall pStmt iCol, in_int64 (sqlite3_column_int64 pStmt iCol).

Lemma run_extracts_effect calls : forall s,
  configured s = true ->
  exists s',
    run (extracts sqlite3_stmt calls) s = Some s'
    /\ iflagptr s' = iflagptr s /\ outintptr s' = outintptr s
    /\ configured s' = true
    /\ (exists evs, stores s' = stores s ++ evs
          /\ Forall (targets_only (iflagptr s) (outintptr s)) evs)
    /\ (forall a, outside (iflagptr s) (outintptr s) a = true ->
          mem s' !! a = mem s !! a).
Proof using column_int64_range.
  induction calls as [|[pStmt iCol] calls IH]; intros s Hcfg.
  - exists s. simpl. repeat split; try done.
    exists []. by rewrite app_nil_r.
  - destruct (extract_effect pStmt iCol s Hcfg (column_int64_range _ _))
      as (s1 & Hrun & Hf & Ho & Hcfg1 & Hst & _ & _ & Hmem).
    destruct (IH s1 Hcfg1) as (s' & Hrun' & Hf' & Ho' & Hcfg' & (evs & Hst' & Hall) & Hmem').
    rewrite Hf, Ho in *.
    exists s'. simpl. rewrite Hrun. repeat split; try done.
    + eexists. split.
      * rewrite Hst', Hst, <- app_assoc. reflexivity.
      * apply Forall_app. split; [|done].
        destruct (_ >? _); repeat constructor.
    + intros a Ha. rewrite Hmem' by done. by apply Hmem.
Qed.


(** C5.  Whatever calls came before, an extraction stores to the
    configured flag exactly once, and afterwards the flag is 1 when the
    column value of this call exceeded 2147483647 and 0 when it did not:
    the flag tells about the latest call. *)
Theorem flag_reflects_latest_call calls pStmt iCol s :
  configured s = true ->
  exists s1 r s2,
    run (extracts sqlite3_stmt calls) s = Some s1
    /\ extract pStmt iCol s1 = Some (r, s2)
    /\ run (extracts sqlite3_stmt (calls ++ [(pStmt, iCol)])) s = Some s2
    /\ writes_to (iflagptr s) (since s1 s2) = 1%nat
    /\ flag_of s2 (iflagptr s) = Some (if overflows pStmt iCol then 1 else 0)
    /\ (flag_of s2 (iflagptr s) = Some 1
        <-> sqlite3_column_int64 pStmt iCol > 2147483647).
Proof using column_int64_range.
  intros Hcfg.
  destruct (run_extracts_effect calls s Hcfg)
    as (s1 & Hrun1 & Hf1 & Ho1 & Hcfg1 & _ & _).
  destruct (extract_effect pStmt iCol s1 Hcfg1 (column_int64_range _ _))
    as (s2 & Hrun2 & _ & _ & _ & Hst & Hflag & _ & _).
  pose proof (targets_ok_apart _ _ _ Hcfg1) as Hapart.
  unfold Mem.within in Hapart.
  rewrite Hf1, Ho1 in *.
  eexists s1, _, s2. split; [done|]. split; [exact Hrun2|]. split; [|split; [|split]].
  - rewrite extracts_app, run_app, Hrun1. simpl. by rewrite Hrun2.
  - rewrite (since_app s1 s2 _ Hst). unfold writes_to.
    destruct (_ >? _); simpl; rewrite Z.eqb_refl; simpl; [|done].
    destruct (Z.leb_spec (outintptr s) (iflagptr s)),
             (Z.ltb_spec (iflagptr s) (outintptr s + 8)); simpl; (done || lia).
  - exact Hflag.
  - rewrite Hflag.
    destruct (Z.gtb_spec (sqlite3_column_int64 pStmt iCol) 2147483647);
      split; (done || lia).
Qed.

(** C6.  After [fastconfig] installs a pair of targets, every store of the
    extractions that follow goes through one of the two new pointers;
    bytes outside the new targets are neither stored to nor changed, and
    so the targets configured before, when they lie apart from the new
    ones, keep their contents. *)
Theorem reconfigure_redirects_stores flag outint calls s :
  targets_ok (mem s) flag outint = true ->
  exists s',
    run (Configure sqlite3_stmt flag outint :: extracts sqlite3_stmt calls) s
      = Some s'
    /\ iflagptr s' = flag /\ outintptr s' = outint
    /\ Forall (targets_only flag outint) (since s s')
    /\ (forall a, outside flag outint a = true ->
          mem s' !! a = mem s !! a /\ writes_to a (since s s') = 0%nat)
    /\ (separate flag outint (iflagptr s) (outintptr s) = true ->
          flag_of s' (iflagptr s) = flag_of s (iflagptr s)
          /\ value_of s' (outintptr s) = value_of s (outintptr s)
          /\ writes_to (iflagptr s) (since s s') = 0%nat
          /\ forall a, Mem.within (outintptr s) 8 a ->
               writes_to a (since s s') = 0%nat).
Proof using column_int64_range.
  intros Hok.
  destruct (run_extracts_effect calls (fastconfig flag outint s) Hok)
    as (s' & Hrun & Hf & Ho & _ & (evs & Hst & Hall) & Hmem).
  simpl in Hf, Ho, Hst, Hall, Hmem.
  assert (Hsince : since s s' = evs) by by apply since_app.
  assert (Hframe : forall a, outside flag outint a = true ->
            mem s' !! a = mem s !! a /\ writes_to a (since s s') = 0%nat).
  { intros a Ha. split; [by apply Hmem|].
    rewrite Hsince. by eapply targets_only_outside. }
  exists s'. split; [exact Hrun|]. split; [done|]. split; [done|].
  split; [by rewrite Hsince|]. split; [exact Hframe|].
  intros Hsep. apply separate_spec in Hsep as [Hflag0 Hout0].
  split; [|split; [|split]].
  - unfold flag_of, Mem.load_char. by apply Hframe.
  - apply value_of_unchanged. intros a Ha. by apply Hframe, Hout0.
  - by apply Hframe.
  - intros a Ha. by apply Hframe, Hout0.
Qed.
End Sessions.
End FastFacts.

(** *** The statements evaluated on a concrete caller *)

Section FastDemoFacts.
Import Fast FastDemo.

Lemma demo_column_range pStmt iCol : in_int64 (column_int64 pStmt iCol).
Proof.
  unfold in_int64, INT64_MIN, INT64_MAX.
  destruct pStmt; simpl; lia.
Qed.

Lemma overflow_reports_full_value_witness :
  exists s',
    sqlite3_column_int_fast stmt column_int64 big 0 configured_state
      = Some (NoValue, s')
    /\ flag_of s' 16 = Some 1
    /\ value_of s' 32 = Some 5000000000.
Proof.
  apply (overflow_reports_full_value stmt column_int64 big 0 configured_state 5000000000).
  - vm_compute; reflexivity.
  - reflexivity.
  - unfold in_int64, INT64_MIN, INT64_MAX; lia.
  - lia.
Defined.


Lemma negative_is_narrowed_silently_witness :
  exists r s',
    sqlite3_column_int_fast stmt column_int64 negative 0 configured_state
      = Some (Returned r, s')
    /\ flag_of s' 16 = Some 0
    /\ in_int r
    /\ r mod 2 ^ 32 = (-3000000000) mod 2 ^ 32
    /\ since configured_state s' = [StoreFlag 16 0]
    /\ value_of s' 32 = value_of configured_state 32
    /\ (-2147483648 <= -3000000000 -> r = -3000000000)
    /\ (-3000000000 < -2147483648 -> r <> -3000000000).
Proof.
  apply (negative_is_narrowed_silently stmt column_int64 negative 0
           configured_state (-3000000000)).
  - vm_compute; reflexivity.
  - reflexivity.
  - unfold in_int64, INT64_MIN, INT64_MAX; lia.
  - lia.
Defined.

Lemma small_value_is_returned_witness :
  exists s',
    sqlite3_column_int_fast stmt column_int64 (small 4000000000) 0 configured_state
      = Some (Returned 2147483647, s')
    /\ flag_of s' 16 = Some 0.
Proof.
  apply (small_value_is_returned stmt column_int64 (small 4000000000) 0
           configured_state 2147483647).
  - vm_compute; reflexivity.
  - vm_compute; reflexivity.
  - lia.
Defined.

Lemma value_target_kept_without_overflow_witness :
  exists r s',
    sqlite3_column_int_fast stmt column_int64 negative 0 configured_state
      = Some (r, s')
    /\ (forall a, Mem.within 32 8 a -> mem s' !! a = mem configured_state !! a)
    /\ value_of s' 32 = value_of configured_state 32
    /\ (forall p x, ~ In (StoreInt64 p x) (since configured_state s'))
    /\ (forall a, Mem.within 32 8 a ->
          writes_to a (since configured_state s') = 0%nat).
Proof.
  apply (value_target_kept_without_overflow stmt column_int64 negative 0
           configured_state (-3000000000)).
  - vm_compute; reflexivity.
  - reflexivity.
  - unfold in_int64, INT64_MIN, INT64_MAX; lia.
  - lia.
Defined.

Lemma flag_reflects_latest_call_witness :
  exists s1 r s2,
    run stmt column_int64 (extracts stmt [(big, 0); (small 7, 0)]) configured_state
      = Some s1
    /\ sqlite3_column_int_fast stmt column_int64 negative 0 s1 = Some (r, s2)
    /\ run stmt column_int64
         (extracts stmt ([(big, 0); (small 7, 0)] ++ [(negative, 0)]))
         configured_state = Some s2
    /\ writes_to 16 (since s1 s2) = 1%nat
    /\ flag_of s2 16 = Some (if overflows stmt column_int64 negative 0 then 1 else 0)
    /\ (flag_of s2 16 = Some 1 <-> column_int64 negative 0 > 2147483647).
Proof.
  apply (flag_reflects_latest_call stmt column_int64 demo_column_range
           [(big, 0); (small 7, 0)] negative 0 configured_state).
  vm_compute; reflexivity.
Defined.

Lemma reconfigure_redirects_stores_witness :
  exists s',
    run stmt column_int64
      (Configure stmt 64 72 :: extracts stmt [(big, 0); (small 7, 0)])
      configured_state = Some s'
    /\ iflagptr s' = 64 /\ outintptr s' = 72
    /\ Forall (targets_only 64 72) (since configured_state s')
    /\ (forall a, outside 64 72 a = true ->
          mem s' !! a = mem configured_state !! a
          /\ writes_to a (since configured_state s') = 0%nat)
    /\ (separate 64 72 16 32 = true ->
          flag_of s' 16 = flag_of configured_state 16
          /\ value_of s' 32 = value_of configured_state 32
          /\ writes_to 16 (since configured_state s') = 0%nat
          /\ forall a, Mem.within 32 8 a ->
               writes_to a (since configured_state s') = 0%nat).
Proof.
  apply (reconfigure_redirects_stores stmt column_int64 demo_column_range
           64 72 [(big, 0); (small 7, 0)] configured_state).
  vm_compute; reflexivity.
Defined.

(** The precondition is needed: before [fastconfig] both pointers are null and
    the first store has no defined result. *)
Example extract_before_fastconfig :
  sqlite3_column_int_fast stmt column_int64 big 0 (initial memory) = None.
Proof. vm_compute; reflexivity. Qed.

(** So is the separation of the two targets: with the flag pointing into the
    value, the store of the value overwrites the flag. *)
Example extract_with_flag_inside_value :
  exists s',
    sqlite3_column_int_fast stmt column_int64 big 0 (fastconfig 32 32 (initial memory))
      = Some (NoValue, s')
    /\ flag_of s' 32 = Some 0.
Proof. eexists. split; vm_compute; reflexivity. Qed.

(** The session of the demo caller, run: the first pair keeps 1 and
    5000000000 from the call made before the reconfiguration. *)
Example demo_session :
  exists s',
    run stmt column_int64
      [Extract stmt big 0; Configure stmt 64 72; Extract stmt (small 7) 0;
       Extract stmt big 0; Extract stmt negative 0]
      configured_state = Some s'
    /\ flag_of s' 16 = Some 1 /\ value_of s' 32 = Some 5000000000
    /\ flag_of s' 64 = Some 0 /\ value_of s' 72 = Some 5000000000.
Proof.
  eexists. split; [vm_compute; reflexivity|].
  split; [vm_compute; reflexivity|]. split; [vm_compute; reflexivity|].
  split; vm_compute; reflexivity.
Qed.
End FastDemoFacts.

(** ** The benchmark of src/bench/bench.c *)

Section BenchFacts.
Import Bench.

Variable P : platform.

Implicit Types (w : world P) (stmt : Z) (l : list call) (ls : list (list call)).

(** *** One iteration *)

Lemma get_version_run stmt w :
  let rc := fst (answer P (Step stmt) (outside P w)) in
  let e1 := snd (answer P (Step stmt) (outside P w)) in
  exists w',
    get_version P stmt w =
      Done (if rc =? SQLITE_ROW P then fst (answer P (ColumnInt stmt 0) e1) else 0) w'
    /\ calls P w' = calls P w ++ version_calls P stmt rc
    /\ stdout P w' = stdout P w
    /\ total P w' = total P w
    /\ count P w' = count P w.
Proof.
  unfold get_version, version_calls, cycle, bind, extern, ret. simpl.
  destruct (fst (answer P (Step stmt) (outside P w)) =? SQLITE_ROW P);
    (eexists; split; [reflexivity|]; simpl; by rewrite <- !app_assoc).
Qed.

Lemma bind_done {A B : Type} (m : M P A) (k : A -> M P B) w a w1 :
  m w = Done a w1 -> bind P m k w = k a w1.
Proof. unfold bind. by intros ->. Qed.

Lemma get_version_one stmt w :
  one_version P stmt
    (version_calls P stmt (fst (answer P (Step stmt) (outside P w)))).
Proof. by exists (outside P w). Qed.

(** *** The loop of [bench] *)

Lemma for_loop_run stmt fuel : forall i w,
  (Z.to_nat (count P w - i) < fuel)%nat ->
  exists w' ls,
    for_loop P fuel i stmt w = Done tt w'
    /\ calls P w' = calls P w ++ concat ls
    /\ length ls = Z.to_nat (count P w - i)
    /\ Forall (one_version P stmt) ls
    /\ stdout P w' = stdout P w
    /\ total P w' = total P w
    /\ count P w' = count P w.
Proof.
  induction fuel as [|fuel IH]; intros i w Hfuel; [lia|].
  cbn [for_loop]. unfold bind at 1. unfold get_count at 1.
  destruct (Z.ltb_spec i (count P w)) as [Hlt | Hge].
  - destruct (get_version_run stmt w) as (w1 & Hrun1 & Hc1 & Hs1 & Ht1 & Hn1).
    rewrite (bind_done _ _ _ _ _ Hrun1).
    destruct (IH (i + 1) w1) as (w' & ls & Hrun & Hc & Hlen & Hall & Hs & Ht & Hn).
    { rewrite Hn1. lia. }
    exists w', (version_calls P stmt (fst (answer P (Step stmt) (outside P w))) :: ls).
    split; [exact Hrun|]. split; [|split; [|split]].
    + rewrite Hc, Hc1. simpl. by rewrite <- app_assoc.
    + simpl. rewrite Hlen, Hn1. lia.
    + constructor; [apply get_version_one | done].
    + by rewrite Hs, Ht, Hn.
  - exists w, []. unfold ret. simpl. rewrite app_nil_r.
    repeat split; try done. lia.
Qed.

Lemma bench_run stmt fuel w :
  (Z.to_nat (count P w) < fuel)%nat ->
  exists w' b line,
    bench P fuel stmt w = Done tt w'
    /\ calls P w' = calls P w ++ b
    /\ one_batch P stmt (count P w) b
    /\ stdout P w' = stdout P w ++ [line]
    /\ is_timing_line P (count P w) line
    /\ total P w' = total P w
    /\ count P w' = count P w.
Proof.
  intros Hfuel. unfold bench.
  unfold bind at 1. unfold extern at 1. cbv zeta.
  set (start := fst (answer P Clock (outside P w))).
  set (w0 := mkWorld P _ _ _ _ _).
  destruct (for_loop_run stmt fuel 0 w0) as (w1 & ls & Hrun & Hc & Hlen & Hall & Hs & Ht & Hn).
  { simpl. by rewrite Z.sub_0_r. }
  rewrite (bind_done _ _ _ _ _ Hrun).
  unfold bind, extern, get_count, printf. cbv zeta.
  eexists _, (Clock :: concat ls ++ [Clock]), _.
  split; [reflexivity|]. cbn [calls stdout total count].
  rewrite Hc, Hs, Ht, Hn. simpl in *. rewrite Z.sub_0_r in Hlen.
  repeat split; try done.
  - by rewrite <- !app_assoc.
  - by exists ls.
  - eexists _, _. reflexivity.
Qed.

(** *** The loop of [main] *)

Lemma while_total_run stmt fuel n : forall w,
  0 <= total P w ->
  (Z.to_nat (total P w) < n)%nat ->
  (0 < total P w -> (Z.to_nat (count P w) < fuel)%nat) ->
  exists w' bs,
    while_total P n fuel stmt w = Done tt w'
    /\ calls P w' = calls P w ++ concat bs
    /\ length bs = Z.to_nat (total P w)
    /\ Forall (one_batch P stmt (count P w)) bs
    /\ (exists lines, stdout P w' = stdout P w ++ lines
          /\ length lines = length bs
          /\ Forall (is_timing_line P (count P w)) lines)
    /\ total P w' = -1
    /\ count P w' = count P w.
Proof.
  induction n as [|n IH]; intros w Hpos Hn Hfuel; [lia|].
  cbn [while_total]. unfold bind at 1.
  unfold post_decrement_total, bind, get_total, set_total, ret.
  destruct (Z.eqb_spec (total P w) INT_MIN) as [Hmin | _];
    [unfold INT_MIN in Hmin; lia|].
  set (w0 := mkWorld P _ _ _ _ _).
  destruct (Z.eqb_spec (total P w) 0) as [Hz | Hnz].
  - exists w0, []. simpl. rewrite app_nil_r, Hz.
    repeat split; try done.
    exists []. by rewrite app_nil_r.
  - destruct (bench_run stmt fuel w0) as (w1 & b & line & Hrun1 & Hc1 & Hb & Hs1 & Hl & Ht1 & Hn1);
      [apply Hfuel; lia|].
    rewrite Hrun1.
    destruct (IH w1) as (w' & bs & Hrun & Hc & Hlen & Hall & (lines & Hs & Hll & Hlines) & Ht & Hcn).
    { rewrite Ht1. simpl. lia. }
    { rewrite Ht1. simpl. lia. }
    { intros _. rewrite Hn1. apply Hfuel. lia. }
    rewrite Hn1 in *. simpl in Hc1, Hs1, Hb, Hl, Ht1, Hall, Hlines, Hcn.
    exists w', (b :: bs). split; [exact Hrun|].
    split; [|split; [|split; [|split]]].
    + rewrite Hc, Hc1. simpl. by rewrite <- app_assoc.
    + simpl. rewrite Hlen, Ht1. simpl. lia.
    + by constructor.
    + exists (line :: lines). split; [|split].
      * rewrite Hs, Hs1. by rewrite <- app_assoc.
      * simpl. by rewrite Hll.
      * by constructor.
    + done.
Qed.

(** *** The command line *)

Lemma main_sets_total argv e :
  (if Z.of_nat (length argv) >? 1
   then set_total P (atoi P (nth 1 argv EmptyString)) else ret P tt) (initial P e)
  = Done tt (mkWorld P e [] [] (batches_arg P argv) 1000000).
Proof.
  destruct argv as [|prog [|a1 rest]]; try reflexivity.
  destruct (Z.gtb_spec (Z.of_nat (length (prog :: a1 :: rest))) 1) as [_ | Hle];
    [reflexivity | simpl length in Hle; lia].
Qed.

Lemma main_sets_count argv e t :
  (if Z.of_nat (length argv) >? 2
   then set_count P (atoi P (nth 2 argv EmptyString)) else ret P tt)
    (mkWorld P e [] [] t 1000000)
  = Done tt (mkWorld P e [] [] t (iterations_arg P argv)).
Proof.
  destruct argv as [|prog [|a1 [|a2 rest]]]; try reflexivity.
  destruct (Z.gtb_spec (Z.of_nat (length (prog :: a1 :: a2 :: rest))) 2) as [_ | Hle];
    [reflexivity | simpl length in Hle; lia].
Qed.

(** *** The whole run *)

(** [main] up to its loop: the arguments are read, the set-up calls are made,
    and the loop starts with the two variables holding the command line. *)
Lemma main_unfold fuel argv e :
  exists db stmt e',
    main P fuel argv (initial P e)
    = bind P (while_total P fuel fuel stmt) (fun _ => main_tail P db stmt)
        (mkWorld P e' (prologue P db) [] (batches_arg P argv) (iterations_arg P argv)).
Proof.
  unfold main. cbv zeta.
  rewrite (bind_done _ _ _ _ _ (main_sets_total argv e)).
  rewrite (bind_done _ _ _ _ _ (main_sets_count argv e _)).
  do 7 (unfold bind at 1; unfold extern at 1; cbv zeta; cbn [outside calls stdout total count]).
  eexists _, _, _. reflexivity.
Qed.

Lemma main_tail_run db stmt w :
  exists w',
    main_tail P db stmt w = Done 0 w'
    /\ calls P w' = calls P w ++ epilogue db stmt
    /\ stdout P w' = stdout P w.
Proof.
  unfold main_tail, bind, extern, ret, epilogue. cbv zeta.
  eexists. split; [reflexivity|]. simpl. by rewrite <- !app_assoc.
Qed.

Lemma main_run fuel argv e :
  0 <= batches_arg P argv ->
  (Z.to_nat (batches_arg P argv) < fuel)%nat ->
  (0 < batches_arg P argv -> (Z.to_nat (iterations_arg P argv) < fuel)%nat) ->
  exists db stmt w' bs,
    main P fuel argv (initial P e) = Done 0 w'
    /\ calls P w' = prologue P db ++ concat bs ++ epilogue db stmt
    /\ length bs = Z.to_nat (batches_arg P argv)
    /\ Forall (one_batch P stmt (iterations_arg P argv)) bs
    /\ length (stdout P w') = length bs
    /\ Forall (is_timing_line P (iterations_arg P argv)) (stdout P w').
Proof.
  intros Hpos Hfuel1 Hfuel2.
  destruct (main_unfold fuel argv e) as (db & stmt & e' & ->).
  set (w0 := mkWorld P _ _ _ _ _).
  destruct (while_total_run stmt fuel fuel w0)
    as (w1 & bs & Hrun & Hc & Hlen & Hall & (lines & Hs & Hll & Hlines) & _ & _);
    [done | done | done |].
  rewrite (bind_done _ _ _ _ _ Hrun).
  destruct (main_tail_run db stmt w1) as (w' & -> & Hc' & Hs').
  simpl in Hc, Hs, Hlen, Hall, Hlines.
  exists db, stmt, w', bs. rewrite Hc', Hs', Hc, Hs.
  repeat split; done.
Qed.

(** A negative batch count keeps [while (total--)] going until the decrement
    of [INT_MIN]: with fuel for all those batches the run has no defined
    result.  This is why the statements about whole runs ask for a batch
    count of at least 0. *)
Lemma while_total_negative stmt fuel n : forall w,
  INT_MIN <= total P w < 0 ->
  (Z.to_nat (total P w - INT_MIN) < n)%nat ->
  (Z.to_nat (count P w) < fuel)%nat ->
  while_total P n fuel stmt w = Undefined.
Proof.
  induction n as [|n IH]; intros w Hneg Hn Hfuel; [lia|].
  cbn [while_total]. unfold bind at 1.
  unfold post_decrement_total, bind, get_total, set_total, ret.
  destruct (Z.eqb_spec (total P w) INT_MIN) as [Hmin | Hmin]; [done|].
  set (w0 := mkWorld P _ _ _ _ _).
  destruct (Z.eqb_spec (total P w) 0) as [Hz | _]; [lia|].
  destruct (bench_run stmt fuel w0) as (w1 & b & line & -> & _ & _ & _ & _ & Ht1 & Hn1);
    [done|].
  simpl in Ht1, Hn1. apply IH.
  - rewrite Ht1. unfold INT_MIN in *. lia.
  - rewrite Ht1. unfold INT_MIN in *. lia.
  - by rewrite Hn1.
Qed.

(** X16.  With a batch count below 0, [while (total--)] never meets 0: it
    runs batch after batch until it decrements [INT_MIN], and the run has no
    defined result. *)
Remark negative_batch_count_overflows fuel argv e :
  INT_MIN <= batches_arg P argv < 0 ->
  (Z.to_nat (batches_arg P argv - INT_MIN) < fuel)%nat ->
  (Z.to_nat (iterations_arg P argv) < fuel)%nat ->
  main P fuel argv (initial P e) = Undefined.
Proof.
  intros Hneg Hfuel1 Hfuel2.
  destruct (main_unfold fuel argv e) as (db & stmt & e' & ->).
  unfold bind. by rewrite while_total_negative.
Qed.

(** *** Timing lines *)

Lemma newlines_append s1 s2 :
  newlines (String.append s1 s2) = (newlines s1 + newlines s2)%nat.
Proof. induction s1 as [|c s1 IH]; simpl; [done | rewrite IH; lia]. Qed.

(** The text of one [printf] is one line when the two renderings hold no
    newline. *)
Lemma timing_line_is_one_line start finish c :
  newlines (elapsed_0f P start finish) = 0%nat ->
  newlines (rate_0f P start finish c) = 0%nat ->
  newlines (timing_line P start finish c) = 1%nat.
Proof.
  intros He Hr. unfold timing_line.
  rewrite !newlines_append, He, Hr. reflexivity.
Qed.

Lemma newlines_output chunks :
  newlines (output_text chunks) = list_sum (map newlines chunks).
Proof.
  induction chunks as [|c chunks IH]; [done|].
  simpl. by rewrite newlines_append, IH.
Qed.

(** A timing line ends a line of output, whatever the renderings hold. *)
Lemma is_timing_line_newlines c text :
  is_timing_line P c text ->
  exists start finish,
    newlines text
    = (1 + newlines (elapsed_0f P start finish)
       + newlines (rate_0f P start finish c))%nat.
Proof.
  intros (start & finish & ->). exists start, finish.
  rewrite !newlines_append. simpl. lia.
Qed.

Lemma single_timing_line c text :
  is_timing_line P c text ->
  exists start finish,
    text = ("time " ++ elapsed_0f P start finish ++ " ms rate "
            ++ rate_0f P start finish c ++ String "010" EmptyString)%string
    /\ (1 <= newlines (output_text [text]))%nat
    /\ (newlines (elapsed_0f P start finish) = 0%nat ->
        newlines (rate_0f P start finish c) = 0%nat ->
        newlines (output_text [text]) = 1%nat).
Proof.
  intros (start & finish & Htext). exists start, finish.
  split; [exact Htext|].
  assert (Hn : newlines (output_text [text])
               = (1 + newlines (elapsed_0f P start finish)
                  + newlines (rate_0f P start finish c))%nat).
  { unfold output_text. cbn [fold_right].
    rewrite newlines_append, Htext, !newlines_append. simpl. lia. }
  rewrite Hn. split; [lia|]. intros -> ->. reflexivity.
Qed.

Lemma timing_lines_at_least c lines :
  Forall (is_timing_line P c) lines ->
  (length lines <= newlines (output_text lines))%nat.
Proof.
  rewrite newlines_output.
  induction 1 as [|line lines Hline _ IH]; [done|].
  destruct (is_timing_line_newlines c line Hline) as (start & finish & Hn).
  change (list_sum (map newlines (line :: lines)))
    with (newlines line + list_sum (map newlines lines))%nat.
  simpl length. lia.
Qed.

Lemma timing_lines_exactly c lines :
  (forall start finish, newlines (elapsed_0f P start finish) = 0%nat) ->
  (forall start finish c', newlines (rate_0f P start finish c') = 0%nat) ->
  Forall (is_timing_line P c) lines ->
  newlines (output_text lines) = length lines.
Proof.
  intros He Hr. rewrite newlines_output.
  induction 1 as [|line lines Hline _ IH]; [done|].
  destruct (is_timing_line_newlines c line Hline) as (start & finish & Hn).
  change (list_sum (map newlines (line :: lines)))
    with (newlines line + list_sum (map newlines lines))%nat.
  rewrite Hn, He, Hr, IH. reflexivity.
Qed.

(** *** Counting steps in a log *)

Lemma count_steps_app l1 l2 :
  count_steps (l1 ++ l2) = (count_steps l1 + count_steps l2)%nat.
Proof. unfold count_steps. by rewrite List.filter_app, List.length_app. Qed.

Lemma count_steps_version stmt l : one_version P stmt l -> count_steps l = 1%nat.
Proof.
  intros [e ->]. unfold version_calls.
  by destruct (_ =? _).
Qed.

Lemma count_steps_versions stmt ls :
  Forall (one_version P stmt) ls -> count_steps (concat ls) = length ls.
Proof.
  induction 1 as [|l ls Hl _ IH]; [done|].
  simpl. by rewrite count_steps_app, IH, (count_steps_version stmt l Hl).
Qed.

Lemma count_steps_batch stmt c b :
  one_batch P stmt c b -> count_steps b = Z.to_nat c.
Proof.
  intros (ls & -> & Hlen & Hall).
  change (Clock :: concat ls ++ [Clock]) with ([Clock] ++ concat ls ++ [Clock]).
  rewrite !count_steps_app, (count_steps_versions stmt ls Hall), Hlen.
  unfold count_steps; simpl. lia.
Qed.

Lemma count_steps_batches stmt c bs :
  Forall (one_batch P stmt c) bs ->
  count_steps (concat bs) = (length bs * Z.to_nat c)%nat.
Proof.
  induction 1 as [|b bs Hb _ IH]; [done|].
  simpl. by rewrite count_steps_app, IH, (count_steps_batch stmt c b Hb).
Qed.

(** *** Logs when every step yields a row *)

Lemma one_version_row stmt l :
  always_row P -> one_version P stmt l -> l = cycle stmt.
Proof.
  intros Hrow [e ->]. unfold version_calls.
  by rewrite Hrow, Z.eqb_refl.
Qed.

Lemma versions_row stmt ls :
  always_row P -> Forall (one_version P stmt) ls ->
  ls = repeat (cycle stmt) (length ls).
Proof.
  intros Hrow. induction 1 as [|l ls Hl _ IH]; [done|].
  simpl. by rewrite <- IH, (one_version_row stmt l Hrow Hl).
Qed.

Lemma one_batch_row stmt c b :
  always_row P -> one_batch P stmt c b -> b = batch stmt (Z.to_nat c).
Proof.
  intros Hrow (ls & -> & Hlen & Hall). unfold batch.
  by rewrite (versions_row stmt ls Hrow Hall), Hlen.
Qed.

(** *** Properties of the benchmark *)

(** C7.  When the step of [get_version] does not yield a row, whatever other
    result code it gives, the routine finalizes the statement and returns 0;
    when it yields a row, the routine reads column 0, resets the statement
    and returns the value read. *)
Theorem get_version_finalizes_without_row stmt w :
  let rc := fst (answer P (Step stmt) (outside P w)) in
  let e1 := snd (answer P (Step stmt) (outside P w)) in
  (rc <> SQLITE_ROW P ->
     exists w',
       get_version P stmt w = Done 0 w'
       /\ calls P w' = calls P w ++ [Step stmt; Finalize stmt])
  /\ (rc = SQLITE_ROW P ->
     exists w',
       get_version P stmt w = Done (fst (answer P (ColumnInt stmt 0) e1)) w'
       /\ calls P w' = calls P w ++ [Step stmt; ColumnInt stmt 0; Reset stmt]).
Proof.
  intros rc e1.
  destruct (get_version_run stmt w) as (w' & Hrun & Hc & _).
  fold rc e1 in Hrun, Hc. unfold version_calls, cycle in Hc.
  split; intros Hrc; exists w'.
  - apply Z.eqb_neq in Hrc. by rewrite Hrc in Hrun, Hc.
  - apply Z.eqb_eq in Hrc. by rewrite Hrc in Hrun, Hc.
Qed.

(** C8.  With one batch of three iterations and a statement whose every step
    yields a row, the run makes the calls step, read column 0, reset exactly
    three times in a row on the statement, and writes exactly one timing
    line: standard output is the one text [time], the elapsed time,
    [ms rate], the rate and a newline, which is one line when the two
    renderings hold no newline. *)
Theorem one_batch_of_three_iterations fuel prog a1 a2 e :
  always_row P ->
  atoi P a1 = 1 ->
  atoi P a2 = 3 ->
  (3 < fuel)%nat ->
  exists db stmt w' start finish,
    main P fuel [prog; a1; a2] (initial P e) = Done 0 w'
    /\ calls P w' = prologue P db ++ batch stmt 3 ++ epilogue db stmt
    /\ List.filter on_statement (calls P w')
       = cycle stmt ++ cycle stmt ++ cycle stmt ++ [Finalize stmt]
    /\ count_steps (calls P w') = 3%nat
    /\ stdout P w'
       = [("time " ++ elapsed_0f P start finish ++ " ms rate "
           ++ rate_0f P start finish 3 ++ String "010" EmptyString)%string]
    /\ (1 <= newlines (output_text (stdout P w')))%nat
    /\ (newlines (elapsed_0f P start finish) = 0%nat ->
        newlines (rate_0f P start finish 3) = 0%nat ->
        newlines (output_text (stdout P w')) = 1%nat).
Proof.
  intros Hrow H1 H3 Hfuel.
  destruct (main_run fuel [prog; a1; a2] e)
    as (db & stmt & w' & bs & Hrun & Hc & Hlen & Hall & Hout & Hlines);
    simpl batches_arg in *; simpl iterations_arg in *;
    rewrite ?H1, ?H3 in *; try lia.
  destruct bs as [|b [|b' bs]]; try discriminate.
  apply Forall_cons_iff in Hall as [Hb _].
  apply (one_batch_row stmt 3 b Hrow) in Hb. subst b.
  destruct (stdout P w') as [|line [|line' lines]] eqn:Hs; try discriminate.
  apply Forall_cons_iff in Hlines as [Hline _].
  destruct (single_timing_line 3 line Hline) as (start & finish & Htext & Hge & Hone).
  exists db, stmt, w', start, finish.
  split; [exact Hrun|]. split; [exact Hc|].
  rewrite Hc. split; [done|]. split; [done|].
  by rewrite <- Htext, Hs.
Qed.

(** C9.  The command line of [main]: the batch count is the first argument
    when there is one and 5 otherwise, the iterations per batch are the second
    argument when there is one and 1000000 otherwise ([batches_arg],
    [iterations_arg]).  The run consists of that many batches of that many
    iterations between the set-up and the tear-down, and writes one timing
    line for each batch: each text written has the form [time], elapsed time,
    [ms rate], rate, newline, so the output has at least as many lines as
    batches, and exactly as many when the renderings hold no newline. *)
Theorem command_line_sets_batches_and_iterations fuel argv e :
  0 <= batches_arg P argv ->
  (Z.to_nat (batches_arg P argv) < fuel)%nat ->
  (Z.to_nat (iterations_arg P argv) < fuel)%nat ->
  exists db stmt w' bs,
    main P fuel argv (initial P e) = Done 0 w'
    /\ calls P w' = prologue P db ++ concat bs ++ epilogue db stmt
    /\ length bs = Z.to_nat (batches_arg P argv)
    /\ Forall (one_batch P stmt (iterations_arg P argv)) bs
    /\ count_steps (calls P w')
       = (Z.to_nat (batches_arg P argv) * Z.to_nat (iterations_arg P argv))%nat
    /\ length (stdout P w') = Z.to_nat (batches_arg P argv)
    /\ Forall (is_timing_line P (iterations_arg P argv)) (stdout P w')
    /\ (Z.to_nat (batches_arg P argv) <= newlines (output_text (stdout P w')))%nat
    /\ ((forall start finish, newlines (elapsed_0f P start finish) = 0%nat) ->
        (forall start finish c, newlines (rate_0f P start finish c) = 0%nat) ->
        newlines (output_text (stdout P w')) = Z.to_nat (batches_arg P argv)).
Proof.
  intros Hpos Hfuel1 Hfuel2.
  destruct (main_run fuel argv e Hpos Hfuel1 (fun _ => Hfuel2))
    as (db & stmt & w' & bs & Hrun & Hc & Hlen & Hall & Hout & Hlines).
  exists db, stmt, w', bs.
  split; [done|]. split; [done|]. split; [done|]. split; [done|].
  split; [|split; [|split; [|split]]].
  - rewrite Hc, !count_steps_app.
    rewrite (count_steps_batches stmt _ bs Hall), Hlen.
    unfold count_steps; simpl. lia.
  - by rewrite Hout.
  - done.
  - rewrite <- Hlen, <- Hout. by eapply timing_lines_at_least.
  - intros He Hr. by rewrite (timing_lines_exactly _ _ He Hr Hlines), Hout.
Qed.

(** C10.  When the first argument parses to 0 the loop of [main] ends at its
    first test: the run is the set-up followed at once by the tear-down, with
    no clock reading, no step and no reset, and nothing is written. *)
Theorem zero_batches_run_nothing fuel prog a1 rest e :
  atoi P a1 = 0 ->
  (0 < fuel)%nat ->
  exists db stmt w',
    main P fuel (prog :: a1 :: rest) (initial P e) = Done 0 w'
    /\ calls P w' = prologue P db ++ epilogue db stmt
    /\ List.filter on_statement (calls P w') = [Finalize stmt]
    /\ ~ In Clock (calls P w')
    /\ stdout P w' = [].
Proof.
  intros Hzero Hfuel.
  destruct (main_run fuel (prog :: a1 :: rest) e)
    as (db & stmt & w' & bs & Hrun & Hc & Hlen & _ & Hout & _);
    simpl batches_arg in *; rewrite ?Hzero in *; try lia.
  destruct bs; [|discriminate]. simpl in Hc, Hout.
  destruct (stdout P w') eqn:Hs; [|discriminate].
  exists db, stmt, w'. rewrite Hc.
  split; [done|]. split; [done|]. split; [done|]. split; [|done].
  simpl. intros H. repeat (destruct H as [H | H]; [discriminate|]). done.
Qed.
End BenchFacts.

(** *** The statements evaluated on concrete platforms *)

Section BenchDemoFacts.
Import Bench BenchDemo.

Example libc_atoi_examples :
  libc_atoi "0" = 0 /\ libc_atoi "3" = 3 /\ libc_atoi "  +42abc" = 42
  /\ libc_atoi "-7" = -7 /\ libc_atoi "x" = 0 /\ libc_atoi "1000000" = 1000000.
Proof. repeat split; reflexivity. Qed.

Lemma steady_always_row : always_row steady.
Proof. intros stmt e. reflexivity. Qed.

Lemma get_version_finalizes_without_row_witness :
  (exists w',
     get_version scripted 8192 (initial scripted [1; 100]) = Done 0 w'
     /\ calls scripted w'
        = calls scripted (initial scripted [1; 100]) ++ [Step 8192; Finalize 8192])
  /\ (exists w',
        get_version scripted 8192 (initial scripted [100; 1]) = Done 100 w'
        /\ calls scripted w'
           = calls scripted (initial scripted [100; 1])
             ++ [Step 8192; ColumnInt 8192 0; Reset 8192]).
Proof.
  split.
  - apply (proj1 (get_version_finalizes_without_row scripted 8192
                    (initial scripted [1; 100]))).
    simpl. lia.
  - apply (proj2 (get_version_finalizes_without_row scripted 8192
                    (initial scripted [100; 1]))).
    reflexivity.
Defined.

Lemma one_batch_of_three_iterations_witness :
  exists db stmt w' start finish,
    main steady 4 ["bench"; "1"; "3"]%string (initial steady 0) = Done 0 w'
    /\ calls steady w' = prologue steady db ++ batch stmt 3 ++ epilogue db stmt
    /\ List.filter on_statement (calls steady w')
       = cycle stmt ++ cycle stmt ++ cycle stmt ++ [Finalize stmt]
    /\ count_steps (calls steady w') = 3%nat
    /\ stdout steady w'
       = [("time " ++ elapsed_0f steady start finish ++ " ms rate "
           ++ rate_0f steady start finish 3 ++ String "010" EmptyString)%string]
    /\ (1 <= newlines (output_text (stdout steady w')))%nat
    /\ (newlines (elapsed_0f steady start finish) = 0%nat ->
        newlines (rate_0f steady start finish 3) = 0%nat ->
        newlines (output_text (stdout steady w')) = 1%nat).
Proof.
  apply (one_batch_of_three_iterations steady 4 "bench" "1" "3" 0).
  - intros stmt e. reflexivity.
  - reflexivity.
  - reflexivity.
  - lia.
Defined.

Lemma command_line_sets_batches_and_iterations_witness :
  (exists db stmt w' bs,
     main steady (Z.to_nat 1000001) ["bench"%string] (initial steady 0) = Done 0 w'
     /\ calls steady w' = prologue steady db ++ concat bs ++ epilogue db stmt
     /\ length bs = Z.to_nat 5
     /\ Forall (one_batch steady stmt 1000000) bs
     /\ count_steps (calls steady w') = (Z.to_nat 5 * Z.to_nat 1000000)%nat
     /\ length (stdout steady w') = Z.to_nat 5
     /\ Forall (is_timing_line steady 1000000) (stdout steady w')
     /\ (Z.to_nat 5 <= newlines (output_text (stdout steady w')))%nat
     /\ ((forall start finish, newlines (elapsed_0f steady start finish) = 0%nat) ->
         (forall start finish c, newlines (rate_0f steady start finish c) = 0%nat) ->
         newlines (output_text (stdout steady w')) = Z.to_nat 5))
  /\ (exists db stmt w' bs,
        main scripted 4 ["bench"; "2"; "3"]%string (initial scripted [100; 1]) = Done 0 w'
        /\ calls scripted w' = prologue scripted db ++ concat bs ++ epilogue db stmt
        /\ length bs = Z.to_nat 2
        /\ Forall (one_batch scripted stmt 3) bs
        /\ count_steps (calls scripted w') = (Z.to_nat 2 * Z.to_nat 3)%nat
        /\ length (stdout scripted w') = Z.to_nat 2
        /\ Forall (is_timing_line scripted 3) (stdout scripted w')
        /\ (Z.to_nat 2 <= newlines (output_text (stdout scripted w')))%nat
        /\ ((forall start finish, newlines (elapsed_0f scripted start finish) = 0%nat) ->
            (forall start finish c, newlines (rate_0f scripted start finish c) = 0%nat) ->
            newlines (output_text (stdout scripted w')) = Z.to_nat 2)).
Proof.
  split.
  - apply (command_line_sets_batches_and_iterations steady (Z.to_nat 1000001)
             ["bench"%string] 0).
    + simpl batches_arg. lia.
    + simpl batches_arg. lia.
    + simpl iterations_arg. lia.
  - apply (command_line_sets_batches_and_iterations scripted 4
             ["bench"; "2"; "3"]%string [100; 1]).
    + change (batches_arg scripted ["bench"; "2"; "3"]%string) with 2. lia.
    + change (batches_arg scripted ["bench"; "2"; "3"]%string) with 2. lia.
    + change (iterations_arg scripted ["bench"; "2"; "3"]%string) with 3. lia.
Defined.

Lemma zero_batches_run_nothing_witness :
  exists db stmt w',
    main steady 1 ["bench"; "0"]%string (initial steady 0) = Done 0 w'
    /\ calls steady w' = prologue steady db ++ epilogue db stmt
    /\ List.filter on_statement (calls steady w') = [Finalize stmt]
    /\ ~ In Clock (calls steady w')
    /\ stdout steady w' = [].
Proof.
  apply (zero_batches_run_nothing steady 1 "bench" "0" [] 0).
  - reflexivity.
  - lia.
Defined.


(** The run of C8 on the steady engine, evaluated. *)
Example steady_run_1_3 :
  observe (main steady 4 ["bench"; "1"; "3"]%string (initial steady 0))
  = Ended 0
      (prologue steady 4096 ++ batch 8192 3 ++ epilogue 4096 8192)
      [String.append "time 2 ms rate 1200" (String "010" EmptyString)].
Proof. vm_compute; reflexivity. Qed.

Example steady_line_is_one_line :
  newlines (String.append "time 2 ms rate 1200" (String "010" EmptyString)) = 1%nat.
Proof. reflexivity. Qed.

(** With too little fuel the model gives no result. *)
Example steady_run_out_of_fuel :
  observe (main steady 3 ["bench"; "1"; "3"]%string (initial steady 0)) = FuelSpent.
Proof. vm_compute; reflexivity. Qed.

(** A step that fails in the first of two iterations: [get_version] finalizes
    the statement, and the loop steps and finalizes the same handle again
    before [main] finalizes it a third time. *)
Example failed_step_is_followed_by_more_calls :
  observe (main scripted 3 ["bench"; "1"; "2"]%string (initial scripted [1]))
  = Ended 0
      (prologue scripted 4096
       ++ [Clock; Step 8192; Finalize 8192; Step 8192; Finalize 8192; Clock]
       ++ epilogue 4096 8192)
      [String.append "time 0 ms rate inf" (String "010" EmptyString)].
Proof. vm_compute; reflexivity. Qed.


(** A batch count of -1: the loop would run down to [INT_MIN]. *)
Lemma negative_batch_count_overflows_witness :
  main steady (Z.to_nat 2147483648) ["bench"; "-1"; "0"]%string (initial steady 0)
  = Undefined.
Proof.
  apply (negative_batch_count_overflows steady (Z.to_nat 2147483648)
           ["bench"; "-1"; "0"]%string 0).
  - change (batches_arg steady ["bench"; "-1"; "0"]%string) with (-1).
    unfold INT_MIN; lia.
  - change (batches_arg steady ["bench"; "-1"; "0"]%string) with (-1).
    apply Z2Nat.inj_lt; unfold INT_MIN; lia.
  - change (iterations_arg steady ["bench"; "-1"; "0"]%string) with 0.
    apply Z2Nat.inj_lt; lia.
Defined.

End BenchDemoFacts.

(** * Further properties *)

(** ** Memory *)

Section MemMore.
Import Mem.
Implicit Types (m : gmap Z Z) (p a b z : Z) (bs : list Z).

Lemma writable_spec m p :
  writable m p = true <-> p <> NULL /\ is_Some (m !! p).
Proof.
  unfold writable. rewrite andb_true_iff, negb_true_iff, Z.eqb_neq.
  by rewrite bool_decide_eq_true.
Qed.

Lemma store_byte_defined_inv m p b m' :
  store_byte m p b = Some m' -> writable m p = true.
Proof. unfold store_byte. by destruct (writable m p). Qed.

Lemma store_byte_dom m p b m' :
  store_byte m p b = Some m' -> dom m' = dom m.
Proof.
  intros Hst. pose proof (store_byte_defined_inv _ _ _ _ Hst) as Hw.
  apply writable_spec in Hw as [_ Hin].
  unfold store_byte in Hst. destruct (writable m p); [|done].
  simplify_eq. by apply dom_insert_lookup_L.
Qed.

Lemma store_bytes_dom bs : forall m p m',
  store_bytes m p bs = Some m' -> dom m' = dom m.
Proof.
  induction bs as [|b bs IH]; intros m p m'; simpl.
  - by intros [= <-].
  - destruct (store_byte m p b) as [m1|] eqn:H1; [|done].
    intros H2. rewrite (IH _ _ _ H2). by eapply store_byte_dom.
Qed.

Lemma store_bytes_defined_inv bs : forall m p m' (i : nat),
  store_bytes m p bs = Some m' -> (i < length bs)%nat ->
  writable m (p + Z.of_nat i) = true.
Proof.
  induction bs as [|b bs IH]; intros m p m' i; simpl; [lia|].
  destruct (store_byte m p b) as [m1|] eqn:H1; [|done].
  intros H2 Hi. destruct i as [|i].
  - rewrite Z.add_0_r. by eapply store_byte_defined_inv.
  - rewrite <- (store_byte_writable _ _ _ _ _ H1).
    replace (p + Z.of_nat (S i)) with (p + 1 + Z.of_nat i) by lia.
    eapply IH; [exact H2 | lia].
Qed.

Lemma load_bytes_lookup n : forall m p bs (i : nat),
  load_bytes m p n = Some bs -> (i < n)%nat ->
  m !! (p + Z.of_nat i) = bs !! i.
Proof.
  induction n as [|n IH]; intros m p bs i; [lia|].
  cbn [load_bytes].
  destruct (m !! p) as [b|] eqn:Hb; [|done].
  destruct (load_bytes m (p + 1) n) as [bs'|] eqn:Hbs; [|done].
  intros [= <-] Hi. destruct i as [|i].
  - by rewrite Z.add_0_r.
  - replace (p + Z.of_nat (S i)) with (p + 1 + Z.of_nat i) by lia.
    simpl. apply IH; [done | lia].
Qed.

Lemma le_split_lookup n : forall z (i : nat),
  (i < n)%nat ->
  le_split n z !! i = Some (Z.land (Z.shiftr z (8 * Z.of_nat i)) 255).
Proof.
  induction n as [|n IH]; intros z i Hi; [lia|].
  cbn [le_split]. destruct i as [|i].
  - simpl. by rewrite Z.shiftr_0_r.
  - simpl lookup. rewrite IH by lia.
    rewrite Z.shiftr_shiftr by lia.
    do 3 f_equal. lia.
Qed.

(** Storing again the bytes a range already holds changes nothing. *)
Lemma store_bytes_same bs : forall m p,
  load_bytes m p (length bs) = Some bs ->
  (forall i, (i < length bs)%nat -> writable m (p + Z.of_nat i) = true) ->
  store_bytes m p bs = Some m.
Proof.
  induction bs as [|b bs IH]; intros m p Hld Hw; [done|].
  simpl in Hld.
  destruct (m !! p) as [b0|] eqn:Hb; [|done].
  destruct (load_bytes m (p + 1) (length bs)) as [bs'|] eqn:Hbs; [|done].
  simplify_eq.
  simpl. unfold store_byte.
  specialize (Hw O ltac:(simpl; lia)) as Hw0. simpl in Hw0.
  rewrite Z.add_0_r in Hw0. rewrite Hw0.
  rewrite insert_id by done.
  apply IH; [done|]. intros i Hi.
  replace (p + 1 + Z.of_nat i) with (p + Z.of_nat (S i)) by lia.
  apply Hw. simpl; lia.
Qed.

End MemMore.

(** ** The extractor of src/fast.c, further *)

Section FastMore.
Import Fast.

Variable sqlite3_stmt : Type.
Variable sqlite3_column_int64 : sqlite3_stmt -> Z -> Z.

Local Abbreviation extract := (sqlite3_column_int_fast sqlite3_stmt sqlite3_column_int64).
Local Abbreviation run := (Fast.run sqlite3_stmt sqlite3_column_int64).
Local Abbreviation overflows := (Fast.overflows sqlite3_stmt sqlite3_column_int64).
Local Abbreviation last_overflow := (Fast.last_overflow sqlite3_stmt sqlite3_column_int64).
Local Abbreviation count_overflows := (Fast.count_overflows sqlite3_stmt sqlite3_column_int64).

Implicit Types (s : state) (m : gmap Z Z) (a v : Z).

(** The call, unfolded into its stores. *)
Lemma extract_inv pStmt iCol s r s' :
  extract pStmt iCol s = Some (r, s') ->
  let v := sqlite3_column_int64 pStmt iCol in
  exists m1,
    Mem.store_char (mem s) (iflagptr s) (if v >? 2147483647 then 1 else 0) = Some m1
    /\ if v >? 2147483647
       then exists m2,
              Mem.store_int64 m1 (outintptr s) v = Some m2
              /\ r = NoValue
              /\ s' = mkState (iflagptr s) (outintptr s) m2
                        (stores s ++ [StoreFlag (iflagptr s) 1; StoreInt64 (outintptr s) v])
       else r = Returned (cast_int v)
            /\ s' = mkState (iflagptr s) (outintptr s) m1
                      (stores s ++ [StoreFlag (iflagptr s) 0]).
Proof.
  unfold sqlite3_column_int_fast, assign_flag, assign_outint. cbv zeta.
  destruct (sqlite3_column_int64 pStmt iCol >? 2147483647).
  - destruct (Mem.store_char (mem s) (iflagptr s) 1) as [m1|] eqn:H1; [|done].
    simpl. destruct (Mem.store_int64 m1 (outintptr s) _) as [m2|] eqn:H2; [|done].
    intros [= <- <-]. exists m1. split; [done|]. exists m2.
    split; [done|]. split; [done|]. by rewrite <- app_assoc.
  - destruct (Mem.store_char (mem s) (iflagptr s) 0) as [m1|] eqn:H1; [|done].
    intros [= <- <-]. by exists m1.
Qed.

Lemma extract_defined pStmt iCol s :
  Mem.writable (mem s) (iflagptr s) = true ->
  (sqlite3_column_int64 pStmt iCol > 2147483647 ->
   forall i : nat, (i < 8)%nat ->
     Mem.writable (mem s) (outintptr s + Z.of_nat i) = true) ->
  is_Some (extract pStmt iCol s).
Proof.
  intros Hwf Hwo. unfold sqlite3_column_int_fast. cbv zeta.
  destruct (Z.gtb_spec (sqlite3_column_int64 pStmt iCol) 2147483647) as [Hbig | Hsmall].
  - destruct (assign_flag_effect 1 s Hwf) as (m1 & -> & _ & Hw1).
    unfold assign_outint. cbn [mem outintptr iflagptr stores].
    destruct (store_bytes_defined
                (Mem.le_split 8 (sqlite3_column_int64 pStmt iCol)) m1 (outintptr s))
      as [m2 Hm2].
    + rewrite le_split_length. intros i Hi. rewrite Hw1. apply Hwo; [lia | done].
    + unfold Mem.store_int64. rewrite Hm2. eauto.
  - destruct (assign_flag_effect 0 s Hwf) as (m1 & -> & _). eauto.
Qed.

(** X1.  The call has a defined result exactly when the flag target can be
    stored to and, for a column value above 2147483647, the eight bytes of
    the value target can be stored to as well.  Below that bound the value
    pointer is never used: it may be null. *)
Theorem extract_defined_iff pStmt iCol s :
  is_Some (extract pStmt iCol s)
  <-> Mem.writable (mem s) (iflagptr s) = true
      /\ (sqlite3_column_int64 pStmt iCol > 2147483647 ->
          forall i : nat, (i < 8)%nat ->
            Mem.writable (mem s) (outintptr s + Z.of_nat i) = true).
Proof.
  split.
  - intros [[r s'] Hrun]. apply extract_inv in Hrun as (m1 & Hst1 & Hrest).
    cbv zeta in *. split; [by eapply store_byte_defined_inv|].
    intros Hbig i Hi. rewrite (gtb_true _ Hbig) in Hrest.
    destruct Hrest as (m2 & Hst2 & _).
    rewrite <- (store_byte_writable _ _ _ _ _ Hst1).
    eapply store_bytes_defined_inv; [exact Hst2|].
    by rewrite le_split_length.
  - intros [Hwf Hwo]. by apply extract_defined.
Qed.

(** X2.  Before any [fastconfig] both pointers are null, and a session that
    starts with an extraction has no defined result, whatever the memory and
    the column hold. *)
Theorem extract_before_fastconfig_undefined m pStmt iCol ops :
  run (Extract sqlite3_stmt pStmt iCol :: ops) (initial m) = None.
Proof.
  simpl. unfold sqlite3_column_int_fast, assign_flag, Mem.store_char, Mem.store_byte.
  cbv zeta. simpl.
  by destruct (sqlite3_column_int64 pStmt iCol >? 2147483647).
Qed.

(** X3.  A call with a defined result keeps both pointers and the set of
    mapped addresses, appends one or two stores to the log, and changes no
    byte other than the flag byte and, above 2147483647, the eight value
    bytes.  This holds for any targets, overlapping or not. *)
Theorem extract_frame pStmt iCol s r s' :
  extract pStmt iCol s = Some (r, s') ->
  iflagptr s' = iflagptr s
  /\ outintptr s' = outintptr s
  /\ dom (mem s') = dom (mem s)
  /\ (exists evs, stores s' = stores s ++ evs /\ (1 <= length evs <= 2)%nat)
  /\ (forall a, a <> iflagptr s ->
        (sqlite3_column_int64 pStmt iCol > 2147483647 ->
         ~ Mem.within (outintptr s) 8 a) ->
        mem s' !! a = mem s !! a).
Proof.
  intros Hrun. apply extract_inv in Hrun as (m1 & Hst1 & Hrest). cbv zeta in *.
  destruct (Z.gtb_spec (sqlite3_column_int64 pStmt iCol) 2147483647) as [Hbig | Hsmall].
  - destruct Hrest as (m2 & Hst2 & _ & ->). simpl.
    split; [done|]. split; [done|]. split; [|split].
    + unfold Mem.store_int64 in Hst2.
      rewrite (store_bytes_dom _ _ _ _ Hst2). by eapply store_byte_dom.
    + eexists. split; [reflexivity|]. simpl; lia.
    + intros a Hne Hout.
      rewrite (store_int64_frame _ _ _ _ a Hst2) by (apply Hout; lia).
      rewrite (store_char_lookup _ _ _ _ a Hst1). by rewrite decide_False.
  - destruct Hrest as (_ & ->). simpl.
    split; [done|]. split; [done|]. split; [|split].
    + by eapply store_byte_dom.
    + eexists. split; [reflexivity|]. simpl; lia.
    + intros a Hne _.
      rewrite (store_char_lookup _ _ _ _ a Hst1). by rewrite decide_False.
Qed.


(** X4.  For a column value from -2147483648 up, what the caller sees
    determines the value: either the flag is 0 and the value is the returned
    number, or the flag is 1 and the value is in the value target. *)
Theorem extract_is_lossless_from_int_min pStmt iCol s v :
  configured s = true ->
  sqlite3_column_int64 pStmt iCol = v ->
  -2147483648 <= v <= 9223372036854775807 ->
  exists r s',
    extract pStmt iCol s = Some (r, s')
    /\ ((r = Returned v /\ flag_of s' (iflagptr s) = Some 0)
        \/ (r = NoValue /\ flag_of s' (iflagptr s) = Some 1
            /\ value_of s' (outintptr s) = Some v)).
Proof.
  intros Hcfg Hcol Hv.
  destruct (extract_effect sqlite3_stmt sqlite3_column_int64 pStmt iCol s Hcfg)
    as (s' & Hrun & _ & _ & _ & _ & Hflag & Hval & _).
  { rewrite Hcol. unfold in_int64, INT64_MIN, INT64_MAX. lia. }
  rewrite Hcol in *. eexists _, s'. split; [exact Hrun|].
  destruct (Z.gtb_spec v 2147483647) as [Hbig | Hsmall].
  - right. done.
  - left. split; [|done]. f_equal. apply cast_int_id.
    unfold in_int, INT_MIN, INT_MAX. lia.
Qed.

(** X7.  Repeating a call on the same statement and column returns the same
    and leaves the memory exactly as the first call left it. *)
Theorem repeated_extract_changes_nothing pStmt iCol s :
  configured s = true ->
  in_int64 (sqlite3_column_int64 pStmt iCol) ->
  exists r s1 s2,
    extract pStmt iCol s = Some (r, s1)
    /\ extract pStmt iCol s1 = Some (r, s2)
    /\ mem s2 = mem s1.
Proof.
  intros Hcfg Hv.
  destruct (extract_effect sqlite3_stmt sqlite3_column_int64 pStmt iCol s Hcfg Hv)
    as (s1 & Hrun1 & Hf & Ho & Hcfg1 & _ & Hflag & _ & _).
  pose proof (extract_inv _ _ _ _ _ Hrun1) as (m1 & Hst1 & Hrest). cbv zeta in Hrest.
  unfold flag_of, Mem.load_char in Hflag.
  pose proof (targets_ok_flag _ _ _ Hcfg1) as Hwf.
  assert (Hagain : exists s2,
            extract pStmt iCol s1
            = Some (if sqlite3_column_int64 pStmt iCol >? 2147483647
                    then NoValue
                    else Returned (cast_int (sqlite3_column_int64 pStmt iCol)), s2)
            /\ mem s2 = mem s1).
  { unfold sqlite3_column_int_fast. cbv zeta.
    unfold assign_flag, Mem.store_char, Mem.store_byte. rewrite Hwf, Hf, Ho.
    destruct (sqlite3_column_int64 pStmt iCol >? 2147483647) eqn:Hbig.
    - destruct Hrest as (m2 & Hst2 & _ & Hs1).
      assert (Hm : mem s1 = m2) by (by rewrite Hs1).
      change (Z.land 1 255) with 1. rewrite (insert_id (mem s1)) by done.
      unfold assign_outint, Mem.store_int64. cbn [mem outintptr iflagptr stores].
      rewrite store_bytes_same.
      + eexists. split; [reflexivity|]. done.
      + rewrite Hm. unfold Mem.store_int64 in Hst2.
        by apply load_store_bytes in Hst2.
      + rewrite le_split_length. intros i Hi.
        rewrite <- Ho. by eapply targets_ok_outint.
    - change (Z.land 0 255) with 0. rewrite (insert_id (mem s1)) by done.
      eexists. split; [reflexivity|]. done. }
  destruct Hagain as (s2 & Hrun2 & Hmem).
  by eexists _, s1, s2.
Qed.

(** X8.  [fastconfig] validates nothing and keeps no history: any run of
    reconfigurations is defined, leaves memory and the store log untouched,
    and ends in the state a single [fastconfig] with the last pair gives. *)
Theorem reconfigurations_collapse_to_last targets flag outint s :
  run (configures sqlite3_stmt (targets ++ [(flag, outint)])) s
  = Some (fastconfig flag outint s).
Proof.
  revert s. induction targets as [|[f o] targets IH]; intros s; [done|].
  simpl. unfold configures in IH. by rewrite IH.
Qed.

(** X9.  When the flag pointer points at one of the eight bytes of the value
    target, a column value above 2147483647 is still stored whole, and the
    flag then reads as that byte of the value, not as 1: the flag is stored
    first and the value over it. *)
Theorem flag_inside_value_reads_value_byte pStmt iCol s v (k : nat) :
  (forall i : nat, (i < 8)%nat ->
     Mem.writable (mem s) (outintptr s + Z.of_nat i) = true) ->
  (k < 8)%nat ->
  iflagptr s = outintptr s + Z.of_nat k ->
  sqlite3_column_int64 pStmt iCol = v ->
  in_int64 v ->
  v > 2147483647 ->
  exists s',
    extract pStmt iCol s = Some (NoValue, s')
    /\ value_of s' (outintptr s) = Some v
    /\ flag_of s' (iflagptr s) = Some (Z.land (Z.shiftr v (8 * Z.of_nat k)) 255).
Proof.
  intros Hw Hk Hflag Hcol Hv Hbig.
  destruct (extract_defined pStmt iCol s) as [[r s'] Hrun].
  { rewrite Hflag. by apply Hw. }
  { intros _. exact Hw. }
  pose proof (extract_inv _ _ _ _ _ Hrun) as (m1 & Hst1 & Hrest). cbv zeta in Hrest.
  rewrite Hcol, (gtb_true v Hbig) in Hrest.
  destruct Hrest as (m2 & Hst2 & -> & ->).
  eexists. split; [exact Hrun|]. unfold value_of, flag_of, Mem.load_char. simpl.
  split; [by eapply load_store_int64|].
  unfold Mem.store_int64 in Hst2. apply load_store_bytes in Hst2.
  rewrite le_split_length in Hst2.
  rewrite Hflag, (load_bytes_lookup 8 _ _ _ k Hst2 Hk).
  by apply le_split_lookup.
Qed.

Section SessionsMore.

Hypothesis column_int64_range :
  forall pStmt iCol, in_int64 (sqlite3_column_int64 pStmt iCol).

(** X5.  Over a session of extractions the value target holds the column
    value of the latest call that overflowed; calls that do not overflow
    leave it alone, so it is stale while the flag is 0.  With no overflowing
    call it holds what it held before. *)
Theorem value_target_holds_latest_overflow calls : forall s,
  configured s = true ->
  exists s',
    run (extracts sqlite3_stmt calls) s = Some s'
    /\ value_of s' (outintptr s)
       = match last_overflow calls with
         | Some v => Some v
         | None => value_of s (outintptr s)
         end.
Proof using column_int64_range.
  induction calls as [|[pStmt iCol] calls IH]; intros s Hcfg.
  - by exists s.
  - destruct (extract_effect sqlite3_stmt sqlite3_column_int64 pStmt iCol s Hcfg (column_int64_range _ _))
      as (s1 & Hrun & Hf & Ho & Hcfg1 & _ & _ & Hval & _).
    destruct (IH s1 Hcfg1) as (s' & Hrun' & Hval').
    exists s'. cbn [extracts map Fast.run step fst snd]. rewrite Hrun.
    split; [exact Hrun'|].
    rewrite Ho in Hval'. rewrite Hval'. cbn [Fast.last_overflow fst snd].
    destruct (last_overflow calls) as [w|]; [done|].
    unfold Fast.overflows, INT_MAX.
    destruct (sqlite3_column_int64 pStmt iCol >? 2147483647); [done|].
    apply value_of_unchanged. intros a Ha. apply Hval.
    intros ->. by apply (targets_ok_apart _ _ _ Hcfg).
Qed.

Lemma count_overflows_cons pStmt iCol calls :
  count_overflows ((pStmt, iCol) :: calls)
  = ((if sqlite3_column_int64 pStmt iCol >? 2147483647 then 1 else 0)
     + count_overflows calls)%nat.
Proof.
  unfold Fast.count_overflows, Fast.overflows, INT_MAX. simpl.
  by destruct (sqlite3_column_int64 pStmt iCol >? 2147483647).
Qed.

(** X6.  Over a session of extractions the flag byte is stored to once for
    every call and the value target once for every overflowing call, and
    nothing else is stored. *)
Theorem session_store_counts calls : forall s,
  configured s = true ->
  exists s',
    run (extracts sqlite3_stmt calls) s = Some s'
    /\ writes_to (iflagptr s) (since s s') = length calls
    /\ length (List.filter is_value_store (since s s')) = count_overflows calls
    /\ length (since s s') = (length calls + count_overflows calls)%nat.
Proof using column_int64_range.
  intros s Hcfg.
  assert (exists s' evs,
            run (extracts sqlite3_stmt calls) s = Some s'
            /\ stores s' = stores s ++ evs
            /\ writes_to (iflagptr s) evs = length calls
            /\ length (List.filter is_value_store evs) = count_overflows calls
            /\ length evs = (length calls + count_overflows calls)%nat)
    as (s' & evs & Hrun & Hst & H1 & H2 & H3).
  { revert s Hcfg. induction calls as [|[pStmt iCol] calls IH]; intros s Hcfg.
    - exists s, []. by rewrite app_nil_r.
    - destruct (extract_effect sqlite3_stmt sqlite3_column_int64 pStmt iCol s Hcfg (column_int64_range _ _))
        as (s1 & Hrun & Hf & Ho & Hcfg1 & Hst & _ & _ & _).
      destruct (IH s1 Hcfg1) as (s' & evs & Hrun' & Hst' & H1 & H2 & H3).
      pose proof (targets_ok_apart _ _ _ Hcfg) as Hapart. unfold Mem.within in Hapart.
      exists s'. eexists.
      cbn [extracts map Fast.run step fst snd]. rewrite Hrun.
      split; [exact Hrun'|]. split.
      { rewrite Hst', Hst, <- app_assoc. reflexivity. }
      rewrite Hf in H1.
      rewrite writes_to_app, List.filter_app, !List.length_app, H1, H2, H3.
      rewrite count_overflows_cons. cbn [length].
      generalize (count_overflows calls) as n. intros n.
      destruct (sqlite3_column_int64 pStmt iCol >? 2147483647);
        unfold writes_to; simpl; rewrite Z.eqb_refl; simpl.
      + destruct (Z.leb_spec (outintptr s) (iflagptr s)),
                 (Z.ltb_spec (iflagptr s) (outintptr s + 8)); simpl;
          (lia || (repeat split; lia)).
      + repeat split; lia. }
  exists s'. rewrite (since_app s s' evs Hst). done.
Qed.

End SessionsMore.
End FastMore.

(** ** The benchmark of src/bench/bench.c, further *)

Section BenchMore.
Import Bench.

Variable P : platform.

Implicit Types (w : world P) (stmt : Z) (l : list call) (ls : list (list call)).

Lemma count_if_app f l1 l2 :
  count_if f (l1 ++ l2) = (count_if f l1 + count_if f l2)%nat.
Proof. unfold count_if. by rewrite List.filter_app, List.length_app. Qed.

Lemma count_if_concat_repeat f l n :
  count_if f (concat (repeat l n)) = (n * count_if f l)%nat.
Proof.
  induction n as [|n IH]; [done|].
  simpl. by rewrite count_if_app, IH.
Qed.

Lemma balanced_app l1 l2 : balanced l1 -> balanced l2 -> balanced (l1 ++ l2).
Proof.
  unfold balanced, count_steps. fold (count_if is_step l1) (count_if is_step l2).
  fold (count_if is_step (l1 ++ l2)).
  rewrite !count_if_app. lia.
Qed.

Lemma balanced_version stmt l : one_version P stmt l -> balanced l.
Proof.
  intros [e ->]. unfold version_calls.
  by destruct (_ =? _).
Qed.

Lemma balanced_concat ls : Forall balanced ls -> balanced (concat ls).
Proof.
  induction 1 as [|l ls Hl _ IH]; [done|].
  simpl. by apply balanced_app.
Qed.

Lemma balanced_batch stmt c b : one_batch P stmt c b -> balanced b.
Proof.
  intros (ls & -> & _ & Hall).
  change (Clock :: concat ls ++ [Clock]) with ([Clock] ++ concat ls ++ [Clock]).
  apply balanced_app; [done|]. apply balanced_app; [|done].
  apply balanced_concat. eapply Forall_impl; [exact Hall|].
  intros l. apply balanced_version.
Qed.

Lemma clocks_of_batch stmt c b : one_batch P stmt c b -> count_if is_clock b = 2%nat.
Proof.
  intros (ls & -> & _ & Hall).
  change (Clock :: concat ls ++ [Clock]) with ([Clock] ++ concat ls ++ [Clock]).
  rewrite !count_if_app.
  assert (count_if is_clock (concat ls) = 0%nat) as ->.
  { induction Hall as [|l ls [e ->] _ IH]; [done|].
    simpl. rewrite count_if_app, IH. unfold version_calls.
    by destruct (_ =? _). }
  done.
Qed.

Lemma batches_all_equal stmt c (x : list call) bs :
  (forall b, one_batch P stmt c b -> b = x) ->
  Forall (one_batch P stmt c) bs ->
  bs = repeat x (length bs).
Proof.
  intros Hx. induction 1 as [|b bs Hb _ IH]; [done|].
  simpl. by rewrite <- IH, (Hx b Hb).
Qed.

Lemma one_version_no_row stmt l :
  never_row P -> one_version P stmt l -> l = [Step stmt; Finalize stmt].
Proof.
  intros Hno [e ->]. unfold version_calls.
  specialize (Hno stmt e). apply Z.eqb_neq in Hno. by rewrite Hno.
Qed.

Lemma one_batch_no_row stmt c b :
  never_row P -> one_batch P stmt c b -> b = failed_batch stmt (Z.to_nat c).
Proof.
  intros Hno (ls & -> & Hlen & Hall). unfold failed_batch.
  assert (Hls : ls = repeat [Step stmt; Finalize stmt] (length ls)).
  { clear Hlen. induction Hall as [|l ls Hl _ IH]; [done|].
    simpl. by rewrite <- IH, (one_version_no_row stmt l Hno Hl). }
  by rewrite Hls, Hlen.
Qed.

(** X10.  With [count] at 0 or below, [bench] reads the clock twice, touches
    no statement, and still prints its timing line: the text [time], the
    elapsed time, [ms rate], the rate and a newline are appended to standard
    output, which so grows by at least one line (by exactly one when the
    renderings hold no newline). *)
Theorem bench_without_iterations stmt fuel w :
  count P w <= 0 ->
  (0 < fuel)%nat ->
  exists w' start finish,
    bench P fuel stmt w = Done tt w'
    /\ calls P w' = calls P w ++ [Clock; Clock]
    /\ stdout P w'
       = stdout P w
         ++ [("time " ++ elapsed_0f P start finish ++ " ms rate "
              ++ rate_0f P start finish (count P w) ++ String "010" EmptyString)%string]
    /\ (newlines (output_text (stdout P w))
        < newlines (output_text (stdout P w')))%nat
    /\ (newlines (elapsed_0f P start finish) = 0%nat ->
        newlines (rate_0f P start finish (count P w)) = 0%nat ->
        newlines (output_text (stdout P w'))
        = S (newlines (output_text (stdout P w)))).
Proof.
  intros Hc Hfuel.
  destruct (bench_run P stmt fuel w) as (w' & b & line & Hrun & Hcalls & Hb & Hout & Hline & _).
  { lia. }
  destruct Hb as (ls & -> & Hlen & _).
  replace (Z.to_nat (count P w)) with O in Hlen by lia.
  destruct ls; [|discriminate].
  destruct (single_timing_line P _ line Hline) as (start & finish & Htext & Hge & Hone).
  exists w', start, finish.
  split; [exact Hrun|]. split; [exact Hcalls|].
  rewrite <- Htext. split; [exact Hout|].
  rewrite Hout, !newlines_output, map_app, list_sum_app.
  rewrite newlines_output in Hge, Hone.
  split; [lia|]. intros He Hr. rewrite (Hone He Hr). lia.
Qed.

(** X11.  [main] reads its command line only through the batch count and the
    iterations it takes from it: two command lines that agree on both give
    the same run.  Arguments after the second are never read, and an argument
    that parses to the default is the same as leaving it out. *)
Theorem main_reads_two_arguments fuel argv argv' e :
  batches_arg P argv = batches_arg P argv' ->
  iterations_arg P argv = iterations_arg P argv' ->
  main P fuel argv (initial P e) = main P fuel argv' (initial P e).
Proof.
  intros Hb Hi. unfold main. cbv zeta.
  rewrite (bind_done _ _ _ _ _ _ (main_sets_total P argv e)).
  rewrite (bind_done _ _ _ _ _ _ (main_sets_count P argv e _)).
  rewrite (bind_done _ _ _ _ _ _ (main_sets_total P argv' e)).
  rewrite (bind_done _ _ _ _ _ _ (main_sets_count P argv' e _)).
  by rewrite Hb, Hi.
Qed.

(** X12.  Whatever the engine answers, a run keeps the calls on the
    statement paired: as many resets as column reads, and one finalize more
    than the steps that were not followed by a reset (the one of the
    tear-down).  The clock is read twice per batch. *)
Theorem statement_calls_are_paired fuel argv e :
  0 <= batches_arg P argv ->
  (Z.to_nat (batches_arg P argv) < fuel)%nat ->
  (Z.to_nat (iterations_arg P argv) < fuel)%nat ->
  exists w',
    main P fuel argv (initial P e) = Done 0 w'
    /\ count_if is_column (calls P w') = count_if is_reset (calls P w')
    /\ (count_steps (calls P w') + 1
        = count_if is_reset (calls P w') + count_if is_finalize (calls P w'))%nat
    /\ count_if is_clock (calls P w') = (2 * Z.to_nat (batches_arg P argv))%nat.
Proof.
  intros Hpos Hfuel1 Hfuel2.
  destruct (main_run P fuel argv e Hpos Hfuel1 (fun _ => Hfuel2))
    as (db & stmt & w' & bs & Hrun & Hc & Hlen & Hall & _ & _).
  exists w'. split; [exact Hrun|].
  assert (Hbal : balanced (concat bs)).
  { apply balanced_concat. eapply Forall_impl; [exact Hall|].
    intros b. apply balanced_batch. }
  assert (Hclk : count_if is_clock (concat bs) = (2 * length bs)%nat).
  { clear Hlen Hbal Hc. induction Hall as [|b bs Hb _ IH]; [done|].
    simpl. rewrite count_if_app, IH, (clocks_of_batch stmt _ b Hb). lia. }
  destruct Hbal as [Hcr Hsf]. unfold count_steps in *.
  fold (count_if is_step (concat bs)) in Hsf.
  fold (count_if is_step (calls P w')).
  rewrite Hc, !count_if_app, Hclk, Hlen.
  repeat match goal with
  | |- context [count_if ?f (prologue P ?d)] =>
      let n := eval cbv in (count_if f (prologue P d)) in
      change (count_if f (prologue P d)) with n
  | |- context [count_if ?f (epilogue ?d ?x)] =>
      let n := eval cbv in (count_if f (epilogue d x)) in
      change (count_if f (epilogue d x)) with n
  end.
  lia.
Qed.


Lemma count_if_batch f stmt n :
  count_if f (batch stmt n)
  = (count_if f [Clock] + n * count_if f (cycle stmt) + count_if f [Clock])%nat.
Proof.
  unfold batch.
  change (Clock :: concat (repeat (cycle stmt) n) ++ [Clock])
    with ([Clock] ++ concat (repeat (cycle stmt) n) ++ [Clock]).
  rewrite !count_if_app, count_if_concat_repeat. lia.
Qed.

Lemma count_if_failed_batch f stmt n :
  count_if f (failed_batch stmt n)
  = (count_if f [Clock] + n * count_if f [Step stmt; Finalize stmt]
     + count_if f [Clock])%nat.
Proof.
  unfold failed_batch.
  change (Clock :: concat (repeat [Step stmt; Finalize stmt] n) ++ [Clock])
    with ([Clock] ++ concat (repeat [Step stmt; Finalize stmt] n) ++ [Clock]).
  rewrite !count_if_app, count_if_concat_repeat. lia.
Qed.

(** X13.  When every step yields a row, the whole log of a run is fixed by
    the command line: the set-up, then for each batch a clock reading, the
    cycles step, column 0, reset, and a clock reading, then the tear-down.
    The statement is finalized once, by the tear-down, after its last use. *)
Theorem run_log_when_every_step_yields_a_row fuel argv e :
  always_row P ->
  0 <= batches_arg P argv ->
  (Z.to_nat (batches_arg P argv) < fuel)%nat ->
  (Z.to_nat (iterations_arg P argv) < fuel)%nat ->
  exists db stmt w',
    main P fuel argv (initial P e) = Done 0 w'
    /\ calls P w'
       = prologue P db
         ++ concat (repeat (batch stmt (Z.to_nat (iterations_arg P argv)))
                      (Z.to_nat (batches_arg P argv)))
         ++ epilogue db stmt
    /\ count_if is_finalize (calls P w') = 1%nat.
Proof.
  intros Hrow Hpos Hfuel1 Hfuel2.
  destruct (main_run P fuel argv e Hpos Hfuel1 (fun _ => Hfuel2))
    as (db & stmt & w' & bs & Hrun & Hc & Hlen & Hall & _ & _).
  apply (batches_all_equal stmt _ (batch stmt (Z.to_nat (iterations_arg P argv)))) in Hall;
    [|intros b; by apply one_batch_row].
  rewrite Hlen in Hall. subst bs.
  exists db, stmt, w'. split; [exact Hrun|]. split; [exact Hc|].
  rewrite Hc, !count_if_app, count_if_concat_repeat, count_if_batch.
  change (count_if is_finalize (prologue P db)) with 0%nat.
  change (count_if is_finalize (epilogue db stmt)) with 1%nat.
  change (count_if is_finalize [Clock]) with 0%nat.
  change (count_if is_finalize (cycle stmt)) with 0%nat.
  lia.
Qed.

(** X14.  When no step yields a row, every iteration steps the statement and
    finalizes it, and the next iteration steps the finalized statement again:
    with [t] batches of [c] iterations the one prepared statement is
    finalized [t * c + 1] times and its column is never read. *)
Theorem run_log_when_no_step_yields_a_row fuel argv e :
  never_row P ->
  0 <= batches_arg P argv ->
  (Z.to_nat (batches_arg P argv) < fuel)%nat ->
  (Z.to_nat (iterations_arg P argv) < fuel)%nat ->
  exists db stmt w',
    main P fuel argv (initial P e) = Done 0 w'
    /\ calls P w'
       = prologue P db
         ++ concat (repeat (failed_batch stmt (Z.to_nat (iterations_arg P argv)))
                      (Z.to_nat (batches_arg P argv)))
         ++ epilogue db stmt
    /\ count_if is_finalize (calls P w')
       = (Z.to_nat (batches_arg P argv) * Z.to_nat (iterations_arg P argv) + 1)%nat
    /\ count_if is_column (calls P w') = 0%nat.
Proof.
  intros Hno Hpos Hfuel1 Hfuel2.
  destruct (main_run P fuel argv e Hpos Hfuel1 (fun _ => Hfuel2))
    as (db & stmt & w' & bs & Hrun & Hc & Hlen & Hall & _ & _).
  apply (batches_all_equal stmt _ (failed_batch stmt (Z.to_nat (iterations_arg P argv)))) in Hall;
    [|intros b; by apply one_batch_no_row].
  rewrite Hlen in Hall. subst bs.
  exists db, stmt, w'. split; [exact Hrun|]. split; [exact Hc|].
  rewrite Hc, !count_if_app, !count_if_concat_repeat, !count_if_failed_batch.
  change (count_if is_finalize (prologue P db)) with 0%nat.
  change (count_if is_finalize (epilogue db stmt)) with 1%nat.
  change (count_if is_finalize [Clock]) with 0%nat.
  change (count_if is_finalize [Step stmt; Finalize stmt]) with 1%nat.
  change (count_if is_column (prologue P db)) with 0%nat.
  change (count_if is_column (epilogue db stmt)) with 0%nat.
  change (count_if is_column [Clock]) with 0%nat.
  change (count_if is_column [Step stmt; Finalize stmt]) with 0%nat.
  split; lia.
Qed.

(** X15.  On a platform whose two [%.0f] renderings never hold a newline,
    the text a run writes to standard output has exactly as many lines as
    the batch count. *)
Theorem run_prints_one_line_per_batch fuel argv e :
  (forall start finish, newlines (elapsed_0f P start finish) = 0%nat) ->
  (forall start finish c, newlines (rate_0f P start finish c) = 0%nat) ->
  0 <= batches_arg P argv ->
  (Z.to_nat (batches_arg P argv) < fuel)%nat ->
  (Z.to_nat (iterations_arg P argv) < fuel)%nat ->
  exists w',
    main P fuel argv (initial P e) = Done 0 w'
    /\ newlines (output_text (stdout P w')) = Z.to_nat (batches_arg P argv).
Proof.
  intros He Hr Hpos Hfuel1 Hfuel2.
  destruct (main_run P fuel argv e Hpos Hfuel1 (fun _ => Hfuel2))
    as (db & stmt & w' & bs & Hrun & _ & Hlen & _ & Hout & Hlines).
  exists w'. split; [exact Hrun|].
  by rewrite (timing_lines_exactly P _ _ He Hr Hlines), Hout, Hlen.
Qed.
End BenchMore.

(** *** Further statements evaluated on the concrete caller *)

Section FastMoreDemoFacts.
Import Fast FastDemo.

Lemma after_big_run :
  sqlite3_column_int_fast stmt column_int64 big 0 configured_state
  = Some (NoValue, after_big).
Proof. vm_compute; reflexivity. Qed.

Lemma extract_defined_iff_witness :
  is_Some (sqlite3_column_int_fast stmt column_int64 (small 7) 0 flag_only_state).
Proof.
  apply (proj2 (extract_defined_iff stmt column_int64 (small 7) 0 flag_only_state)).
  split.
  - vm_compute; reflexivity.
  - intros Hbig. vm_compute in Hbig. discriminate.
Defined.

Lemma extract_frame_witness :
  iflagptr after_big = iflagptr configured_state
  /\ outintptr after_big = outintptr configured_state
  /\ dom (mem after_big) = dom (mem configured_state)
  /\ (exists evs, stores after_big = stores configured_state ++ evs
                  /\ (1 <= length evs <= 2)%nat)
  /\ (forall a, a <> iflagptr configured_state ->
        (column_int64 big 0 > 2147483647 ->
         ~ Mem.within (outintptr configured_state) 8 a) ->
        mem after_big !! a = mem configured_state !! a).
Proof.
  apply (extract_frame stmt column_int64 big 0 configured_state NoValue after_big).
  vm_compute; reflexivity.
Defined.

Lemma extract_is_lossless_from_int_min_witness :
  exists r s',
    sqlite3_column_int_fast stmt column_int64 big 0 configured_state = Some (r, s')
    /\ ((r = Returned 5000000000 /\ flag_of s' (iflagptr configured_state) = Some 0)
        \/ (r = NoValue /\ flag_of s' (iflagptr configured_state) = Some 1
            /\ value_of s' (outintptr configured_state) = Some 5000000000)).
Proof.
  apply (extract_is_lossless_from_int_min stmt column_int64 big 0
           configured_state 5000000000).
  - vm_compute; reflexivity.
  - reflexivity.
  - lia.
Defined.

Lemma value_target_holds_latest_overflow_witness :
  exists s',
    run stmt column_int64 (extracts stmt [(big, 0); (small 7, 0)]) configured_state
      = Some s'
    /\ value_of s' (outintptr configured_state)
       = match last_overflow stmt column_int64 [(big, 0); (small 7, 0)] with
         | Some v => Some v
         | None => value_of configured_state (outintptr configured_state)
         end.
Proof.
  apply (value_target_holds_latest_overflow stmt column_int64 demo_column_range
           [(big, 0); (small 7, 0)] configured_state).
  vm_compute; reflexivity.
Defined.

Lemma session_store_counts_witness :
  exists s',
    run stmt column_int64 (extracts stmt [(big, 0); (small 7, 0)]) configured_state
      = Some s'
    /\ writes_to (iflagptr configured_state) (since configured_state s') = 2%nat
    /\ length (List.filter is_value_store (since configured_state s'))
       = count_overflows stmt column_int64 [(big, 0); (small 7, 0)]
    /\ length (since configured_state s')
       = (2 + count_overflows stmt column_int64 [(big, 0%Z); (small 7, 0%Z)])%nat.
Proof.
  apply (session_store_counts stmt column_int64 demo_column_range
           [(big, 0); (small 7, 0)] configured_state).
  vm_compute; reflexivity.
Defined.

Lemma repeated_extract_changes_nothing_witness :
  exists r s1 s2,
    sqlite3_column_int_fast stmt column_int64 big 0 configured_state = Some (r, s1)
    /\ sqlite3_column_int_fast stmt column_int64 big 0 s1 = Some (r, s2)
    /\ mem s2 = mem s1.
Proof.
  apply (repeated_extract_changes_nothing stmt column_int64 big 0 configured_state).
  - vm_compute; reflexivity.
  - unfold in_int64, INT64_MIN, INT64_MAX. simpl. lia.
Defined.

Lemma flag_inside_value_reads_value_byte_witness :
  exists s',
    sqlite3_column_int_fast stmt column_int64 big 0 overlapping_state
      = Some (NoValue, s')
    /\ value_of s' (outintptr overlapping_state) = Some 5000000000
    /\ flag_of s' (iflagptr overlapping_state)
       = Some (Z.land (Z.shiftr 5000000000 (8 * Z.of_nat 0)) 255).
Proof.
  apply (flag_inside_value_reads_value_byte stmt column_int64 big 0
           overlapping_state 5000000000 0).
  - intros i Hi. do 8 (destruct i as [|i]; [vm_compute; reflexivity|]). lia.
  - lia.
  - reflexivity.
  - reflexivity.
  - unfold in_int64, INT64_MIN, INT64_MAX. lia.
  - lia.
Defined.

(** The byte the flag reads in that state is 0 although the call overflowed. *)
Example overlapping_flag_reads_zero :
  Z.land (Z.shiftr 5000000000 (8 * Z.of_nat 0)) 255 = 0.
Proof. reflexivity. Qed.

End FastMoreDemoFacts.

(** *** Further statements evaluated on concrete platforms *)

Section BenchMoreDemoFacts.
Import Bench BenchDemo.

Lemma barren_never_row : never_row barren.
Proof. intros stmt e. simpl. lia. Qed.

Lemma bench_without_iterations_witness :
  exists w' start finish,
    bench steady 1 8192 idle_world = Done tt w'
    /\ calls steady w' = calls steady idle_world ++ [Clock; Clock]
    /\ stdout steady w'
       = stdout steady idle_world
         ++ [("time " ++ elapsed_0f steady start finish ++ " ms rate "
              ++ rate_0f steady start finish (count steady idle_world)
              ++ String "010" EmptyString)%string]
    /\ (newlines (output_text (stdout steady idle_world))
        < newlines (output_text (stdout steady w')))%nat
    /\ (newlines (elapsed_0f steady start finish) = 0%nat ->
        newlines (rate_0f steady start finish (count steady idle_world))
        = 0%nat ->
        newlines (output_text (stdout steady w'))
        = S (newlines (output_text (stdout steady idle_world)))).
Proof.
  apply (bench_without_iterations steady 8192 1 idle_world).
  - simpl. lia.
  - lia.
Defined.

Lemma main_reads_two_arguments_witness :
  main steady 3 ["bench"; "2"; "1"; "ignored"]%string (initial steady 0)
  = main steady 3 ["bench"; " +2"; "1x"]%string (initial steady 0).
Proof.
  apply (main_reads_two_arguments steady 3
           ["bench"; "2"; "1"; "ignored"]%string ["bench"; " +2"; "1x"]%string 0).
  - reflexivity.
  - reflexivity.
Defined.

Lemma statement_calls_are_paired_witness :
  exists w',
    main scripted 4 ["bench"; "2"; "3"]%string (initial scripted [100; 1; 100]) = Done 0 w'
    /\ count_if is_column (calls scripted w') = count_if is_reset (calls scripted w')
    /\ (count_steps (calls scripted w') + 1
        = count_if is_reset (calls scripted w')
          + count_if is_finalize (calls scripted w'))%nat
    /\ count_if is_clock (calls scripted w') = (2 * Z.to_nat 2)%nat.
Proof.
  apply (statement_calls_are_paired scripted 4 ["bench"; "2"; "3"]%string [100; 1; 100]).
  - change (batches_arg scripted ["bench"; "2"; "3"]%string) with 2. lia.
  - change (batches_arg scripted ["bench"; "2"; "3"]%string) with 2. lia.
  - change (iterations_arg scripted ["bench"; "2"; "3"]%string) with 3. lia.
Defined.

Lemma run_log_when_every_step_yields_a_row_witness :
  exists db stmt w',
    main steady 4 ["bench"; "2"; "3"]%string (initial steady 0) = Done 0 w'
    /\ calls steady w'
       = prologue steady db ++ concat (repeat (batch stmt (Z.to_nat 3)) (Z.to_nat 2))
         ++ epilogue db stmt
    /\ count_if is_finalize (calls steady w') = 1%nat.
Proof.
  apply (run_log_when_every_step_yields_a_row steady 4 ["bench"; "2"; "3"]%string 0).
  - intros stmt e. reflexivity.
  - change (batches_arg steady ["bench"; "2"; "3"]%string) with 2. lia.
  - change (batches_arg steady ["bench"; "2"; "3"]%string) with 2. lia.
  - change (iterations_arg steady ["bench"; "2"; "3"]%string) with 3. lia.
Defined.

Lemma run_log_when_no_step_yields_a_row_witness :
  exists db stmt w',
    main barren 4 ["bench"; "2"; "3"]%string (initial barren 0) = Done 0 w'
    /\ calls barren w'
       = prologue barren db
         ++ concat (repeat (failed_batch stmt (Z.to_nat 3)) (Z.to_nat 2))
         ++ epilogue db stmt
    /\ count_if is_finalize (calls barren w') = (Z.to_nat 2 * Z.to_nat 3 + 1)%nat
    /\ count_if is_column (calls barren w') = 0%nat.
Proof.
  apply (run_log_when_no_step_yields_a_row barren 4 ["bench"; "2"; "3"]%string 0).
  - intros stmt e. simpl. lia.
  - change (batches_arg barren ["bench"; "2"; "3"]%string) with 2. lia.
  - change (batches_arg barren ["bench"; "2"; "3"]%string) with 2. lia.
  - change (iterations_arg barren ["bench"; "2"; "3"]%string) with 3. lia.
Defined.

Lemma run_prints_one_line_per_batch_witness :
  exists w',
    main scripted 4 ["bench"; "2"; "3"]%string (initial scripted [100; 1]) = Done 0 w'
    /\ newlines (output_text (stdout scripted w')) = Z.to_nat 2.
Proof.
  apply (run_prints_one_line_per_batch scripted 4 ["bench"; "2"; "3"]%string [100; 1]).
  - intros start finish. reflexivity.
  - intros start finish c. reflexivity.
  - change (batches_arg scripted ["bench"; "2"; "3"]%string) with 2. lia.
  - change (batches_arg scripted ["bench"; "2"; "3"]%string) with 2. lia.
  - change (iterations_arg scripted ["bench"; "2"; "3"]%string) with 3. lia.
Defined.

End BenchMoreDemoFacts.
